(** * Keploy wire-protocol interception: MySQL [ComInitDb] decoding and the
    PostgreSQL record / replay engine.

    A shallow embedding of [pkg/proxy/integrations/mysqlparser/comInitDb.go]
    (which holds both the [mysqlparser] and the [postgresparser] code).  Go
    byte slices are lists of [byte] with their spare capacity, Go [int]s are
    [Z] (64-bit; no value computed here leaves that range), fallible code
    returns a value in the [run] monad, and the two endless loops of the
    engine are step functions over the events their environment delivers. *)

From Stdlib Require Import ZArith List Bool Lia.
From Stdlib.Strings Require Import String Ascii Byte.
Import ListNotations.

Local Open Scope string_scope.
Local Open Scope list_scope.
Local Open Scope Z_scope.

(** ** Go values *)

(** Go's [error] values as far as the engine tells them apart: the [io.EOF]
    sentinel, a [net.Error] whose [Timeout()] is true, and everything else. *)
Inductive error : Type :=
| io_EOF
| net_timeout
| other_error (msg : string).

Definition error_string (e : error) : string :=
  match e with
  | io_EOF => "EOF"
  | net_timeout => "i/o timeout"
  | other_error msg => msg
  end.

(** [err.(net.Error)] succeeds and [Timeout()] holds. *)
Definition isTimeout (err : option error) : bool :=
  match err with
  | Some net_timeout => true
  | _ => false
  end.

(** Run-time panics the code can raise. *)
Inductive panic : Type :=
| IndexOutOfRange
| SliceBoundsOutOfRange
| InterfaceConversion.

(** Result of running a piece of Go code: a value, a panic, or the model's
    loop budget was used up (shown never to happen for the budgets used). *)
Inductive run (A : Type) : Type :=
| Ok (a : A)
| Panic (p : panic)
| OutOfFuel.
Arguments Ok {A} a.
Arguments Panic {A} p.
Arguments OutOfFuel {A}.

Definition bind {A B : Type} (m : run A) (k : A -> run B) : run B :=
  match m with
  | Ok a => k a
  | Panic p => Panic p
  | OutOfFuel => OutOfFuel
  end.

Notation "x <- m ;; k" := (bind m (fun x => k))
  (at level 61, m at next level, right associativity).
Notation "' p <- m ;; k" := (bind m (fun p => k))
  (at level 61, p pattern, m at next level, right associativity).

(** A [[]byte]: the [len] visible elements and the rest of the backing array
    up to [cap]. *)
Record slice : Type := mkSlice {
  elems : list byte;
  spare : list byte
}.

Definition len (s : slice) : Z := Z.of_nat (List.length (elems s)).
Definition cap (s : slice) : Z := Z.of_nat (List.length (elems s ++ spare s)).

(** The bounds [(lo, hi)] of a frame [buffer[lo:hi]] that lies inside the
    visible part of the buffer. *)
Definition withinBuffer (buffer : slice) (f : Z * Z) : Prop :=
  0 <= fst f < snd f /\ snd f <= len buffer.

(** A slice that fills its backing array. *)
Definition bytes (l : list byte) : slice := mkSlice l [].

(** [s[i]] *)
Definition index (s : slice) (i : Z) : run byte :=
  if (0 <=? i) && (i <? len s)
  then match nth_error (elems s) (Z.to_nat i) with
       | Some b => Ok b
       | None => Panic IndexOutOfRange
       end
  else Panic IndexOutOfRange.

(** [s[lo:hi]]: the bounds are checked against the capacity, not the length. *)
Definition reslice (s : slice) (lo hi : Z) : run slice :=
  if (0 <=? lo) && (lo <=? hi) && (hi <=? cap s)
  then let arr := elems s ++ spare s in
       Ok (mkSlice (firstn (Z.to_nat (hi - lo)) (skipn (Z.to_nat lo) arr))
                   (skipn (Z.to_nat hi) arr))
  else Panic SliceBoundsOutOfRange.

(** [s[lo:]], that is [s[lo:len(s)]]. *)
Definition slice_from (s : slice) (lo : Z) : run slice :=
  if (0 <=? lo) && (lo <=? len s)
  then Ok (mkSlice (skipn (Z.to_nat lo) (elems s)) (spare s))
  else Panic SliceBoundsOutOfRange.

Definition byteZ (b : byte) : Z := Z.of_N (Byte.to_N b).

(** [binary.BigEndian.Uint32]: panics unless four bytes are visible. *)
Definition Uint32 (b : slice) : run Z :=
  match elems b with
  | b0 :: b1 :: b2 :: b3 :: _ =>
      Ok (Z.lor (Z.lor (Z.lor (byteZ b3) (Z.shiftl (byteZ b2) 8))
                       (Z.shiftl (byteZ b1) 16))
                (Z.shiftl (byteZ b0) 24))
  | _ => Panic IndexOutOfRange
  end.

(** [uint32(n)] of a non-negative [int]. *)
Definition uint32 (n : Z) : Z := n mod 2 ^ 32.

Definition byte_of_Z (z : Z) : byte :=
  match Byte.of_N (Z.to_N z) with
  | Some b => b
  | None => x00
  end.

(** [string(b)] for a [byte] [b]: the UTF-8 encoding of the code point [b]
    (one byte below 128, two bytes from 128 on). *)
Definition string_of_byte_rune (b : byte) : string :=
  let v := byteZ b in
  if v <? 128 then string_of_list_byte [b]
  else string_of_list_byte
         [byte_of_Z (Z.lor 192 (Z.shiftr v 6)); byte_of_Z (Z.lor 128 (Z.land v 63))].

(** [base64.StdEncoding.EncodeToString] *)
Definition encodeStd : list byte :=
  list_byte_of_string "ABCDEFGHIJKLMNOPQRSTUVWXYZabcdefghijklmnopqrstuvwxyz0123456789+/".

Definition b64digit (v : Z) : ascii :=
  ascii_of_byte (nth (Z.to_nat (Z.land v 63)) encodeStd "A"%byte).

Fixpoint EncodeToString (src : list byte) : string :=
  match src with
  | [] => ""
  | [a] =>
      let v := Z.shiftl (byteZ a) 16 in
      String (b64digit (Z.shiftr v 18)) (String (b64digit (Z.shiftr v 12)) "==")
  | [a; b] =>
      let v := Z.lor (Z.shiftl (byteZ a) 16) (Z.shiftl (byteZ b) 8) in
      String (b64digit (Z.shiftr v 18)) (String (b64digit (Z.shiftr v 12))
        (String (b64digit (Z.shiftr v 6)) "="))
  | a :: b :: c :: rest =>
      let v := Z.lor (Z.lor (Z.shiftl (byteZ a) 16) (Z.shiftl (byteZ b) 8)) (byteZ c) in
      String (b64digit (Z.shiftr v 18)) (String (b64digit (Z.shiftr v 12))
        (String (b64digit (Z.shiftr v 6)) (String (b64digit v) (EncodeToString rest))))
  end.

(** ** package mysqlparser *)

Module mysqlparser.

Record ComInitDbPacket : Type := {
  Status : byte;
  DbName : string
}.

Definition decodeComInitDb (data : list byte) : ComInitDbPacket + error :=
  if Z.of_nat (List.length data) <? 2
  then inr (other_error "data too short for COM_INIT_DB")
  else match data with
       | status :: dbName =>
           inl {| Status := status; DbName := string_of_list_byte dbName |}
       | [] => inr (other_error "data too short for COM_INIT_DB")
       end.

End mysqlparser.

(** ** package pgproto3 (and the structs of [models] built from it) *)

(** The message structs the relay stores and copies without looking inside.
    [BackendFields] stands for the wrapper fields [CancelRequest], [Close],
    [CopyData], [CopyDone], [CopyFail], [Describe], [Flush], [FunctionCall],
    [GssEncRequest], [Query], [SSlRequest], [StartupMessage],
    [SASLInitialResponse], [SASLResponse], [Sync], [Terminate] and [AuthType],
    which every request entry copies one by one from the wrapper;
    [FrontendFields] stands for [AuthenticationOk] ... [RowDescription] and
    [AuthType] on the response side.  Each type comes with its Go zero value. *)
Class Pgproto3 : Type := {
  PasswordMessageT : Type;
  ParseT : Type;
  BindT : Type;
  ExecuteT : Type;
  CommandCompleteT : Type;
  BackendFields : Type;
  FrontendFields : Type;
  zeroPasswordMessage : PasswordMessageT;
  zeroParse : ParseT;
  zeroBind : BindT;
  zeroExecute : ExecuteT;
  zeroCommandComplete : CommandCompleteT;
  zeroBackendFields : BackendFields;
  zeroFrontendFields : FrontendFields
}.

(** Modelled from the spec: [pgproto3.ParameterStatus] and [pgproto3.DataRow]
    are declared outside this file; the relay reads [Name] and [RowValues]
    ("DataRow carries an ordered sequence of column value strings").  A nil
    [RowValues] is [None]. *)
Record ParameterStatus : Type := {
  Name : string;
  Value : string
}.

Record DataRow : Type := {
  RowValues : option (list string)
}.

Definition zeroParameterStatus : ParameterStatus := {| Name := ""; Value := "" |}.
Definition zeroDataRow : DataRow := {| RowValues := None |}.

(** A [pgproto3.FrontendMessage] interface value (a message the client
    sends): nil, a pointer to one of the structs the relay asserts on, or a
    pointer to any other message struct. *)
Inductive FrontendMessage {P : Pgproto3} : Type :=
| nilFrontendMessage
| ptrPasswordMessage (m : PasswordMessageT)
| ptrParse (m : ParseT)
| ptrBind (m : BindT)
| ptrExecute (m : ExecuteT)
| ptrOtherFrontendMessage.

(** A [pgproto3.BackendMessage] interface value (a message the server sends). *)
Inductive BackendMessage {P : Pgproto3} : Type :=
| nilBackendMessage
| ptrCommandComplete (m : CommandCompleteT)
| ptrOtherBackendMessage.

(** Go's zero [time.Time] is [None]; a clock reading is [Some t]. *)
Definition time : Type := option Z.

Module Backend.
(** [models.Backend]: one recorded request entry. *)
Record t {P : Pgproto3} : Type := mk {
  PacketTypes : list string;
  Identfier : string;
  Length : Z;
  Payload : string;
  Bind : BindT;
  Binds : list BindT;
  PasswordMessage : PasswordMessageT;
  Execute : ExecuteT;
  Executes : list ExecuteT;
  Parse : ParseT;
  Parses : list ParseT;
  MsgType : byte;
  Fields : BackendFields
}.

(** [models.Backend{}] *)
Definition zero {P : Pgproto3} : t :=
  mk P [] "" 0 "" zeroBind [] zeroPasswordMessage zeroExecute [] zeroParse []
     x00 zeroBackendFields.
End Backend.

Module Frontend.
(** [models.Frontend]: one recorded response entry. *)
Record t {P : Pgproto3} : Type := mk {
  PacketTypes : list string;
  Identfier : string;
  Length : Z;
  Payload : string;
  CommandComplete : CommandCompleteT;
  CommandCompletes : list CommandCompleteT;
  DataRow_ : DataRow;
  DataRows : list DataRow;
  ParameterStatusCombined : list ParameterStatus;
  MsgType : byte;
  Fields : FrontendFields
}.

(** [models.Frontend{}] *)
Definition zero {P : Pgproto3} : t :=
  mk P [] "" 0 "" zeroCommandComplete [] zeroDataRow [] [] x00 zeroFrontendFields.
End Frontend.

Module Mock.
Record MockSpec {P : Pgproto3} : Type := {
  PostgresRequests : list Backend.t;
  PostgresResponses : list Frontend.t;
  ReqTimestampMock : time;
  ResTimestampMock : time;
  Metadata : list (string * string)
}.

(** [models.Mock] *)
Record t {P : Pgproto3} : Type := {
  Version : string;
  Name : string;
  Kind : string;
  Spec : MockSpec
}.
End Mock.

(** ** package postgresparser *)

Module BackendWrapper.
(** The message structs of the request-side wrapper, the part a translation
    writes. *)
Record decoded {P : Pgproto3} : Type := mkDecoded {
  PasswordMessage : PasswordMessageT;
  Parse : ParseT;
  Parses : list ParseT;
  Bind : BindT;
  Binds : list BindT;
  Execute : ExecuteT;
  Executes : list ExecuteT;
  Fields : BackendFields
}.

Record t {P : Pgproto3} : Type := mk {
  MsgType : byte;
  BodyLen : Z;
  PacketTypes : list string;
  Decoded : decoded
}.
End BackendWrapper.

Module FrontendWrapper.
(** The message structs of the response-side wrapper. *)
Record decoded {P : Pgproto3} : Type := mkDecoded {
  ParameterStatus_ : ParameterStatus;
  ParameterStatusCombined : list ParameterStatus;
  CommandComplete : CommandCompleteT;
  CommandCompletes : list CommandCompleteT;
  DataRow_ : DataRow;
  DataRows : list DataRow;
  Fields : FrontendFields
}.

Record t {P : Pgproto3} : Type := mk {
  MsgType : byte;
  BodyLen : Z;
  PacketTypes : list string;
  Decoded : decoded
}.
End FrontendWrapper.

(** The functions and constants of the repository this file calls but does
    not define.  Modelled from the spec: a translation "maps the message-type
    tag to a variant" and is "side-effect-free other than accumulating into a
    per-burst scratch structure", so it receives the tag and the wrapper's
    message structs and returns those structs, the message and the error; it
    does not write [MsgType], [BodyLen] or [PacketTypes]. *)
Class Collaborators {P : Pgproto3} : Type := {
  isStartupPacket : list byte -> bool;
  NewBackend : BackendWrapper.t;
  DecodeStartupMessage : BackendWrapper.t -> list byte -> BackendWrapper.t * option error;
  TranslateToReadableBackend :
    byte -> BackendWrapper.decoded -> list byte ->
    BackendWrapper.decoded * FrontendMessage * option error;
  PostgresDecoderBackend : Backend.t -> list byte * option error;
  NewFrontend : FrontendWrapper.t;
  TranslateToReadableResponse :
    byte -> FrontendWrapper.decoded -> list byte ->
    FrontendWrapper.decoded * BackendMessage * option error;
  PostgresDecoderFrontend : Frontend.t -> list byte * option error;
  PostgresDecoder : string -> list byte * option error;
  GetVersion : string;
  models_Postgres : string
}.

Module postgresparser.

Definition ProtocolVersion : Z := 0x00030000.

(** The [OutgoingType] method of [PostgresParser]. *)
Definition OutgoingType (buffer : slice) : run bool :=
  if len buffer <? 8 then Ok false
  else
    field <- reslice buffer 4 8 ;;
    version <- Uint32 field ;;
    if version =? 80877103 then Ok true
    else Ok (version =? ProtocolVersion).

(** *** RECORD mode: [encodePostgresOutgoing] *)

Section RecordMode.
Context {P : Pgproto3} {C : Collaborators}.

(** The type assertions on [msg] followed by a dereference: a panic unless
    the interface holds a pointer to that struct. *)
Definition assertPasswordMessage (msg : FrontendMessage) : run PasswordMessageT :=
  match msg with ptrPasswordMessage m => Ok m | _ => Panic InterfaceConversion end.

Definition assertParse (msg : FrontendMessage) : run ParseT :=
  match msg with ptrParse m => Ok m | _ => Panic InterfaceConversion end.

Definition assertBind (msg : FrontendMessage) : run BindT :=
  match msg with ptrBind m => Ok m | _ => Panic InterfaceConversion end.

Definition assertExecute (msg : FrontendMessage) : run ExecuteT :=
  match msg with ptrExecute m => Ok m | _ => Panic InterfaceConversion end.

Definition assertCommandComplete (msg : BackendMessage) : run CommandCompleteT :=
  match msg with ptrCommandComplete m => Ok m | _ => Panic InterfaceConversion end.

(** The four assignments from [msg] in the request loop, keyed on the tag. *)
Definition storeBackendMessage (msgType : byte) (msg : FrontendMessage)
    (d : BackendWrapper.decoded) : run BackendWrapper.decoded :=
  d <- (if Byte.eqb msgType "p"%byte
        then m <- assertPasswordMessage msg ;;
             Ok (BackendWrapper.mkDecoded P m
                   (BackendWrapper.Parse d) (BackendWrapper.Parses d)
                   (BackendWrapper.Bind d) (BackendWrapper.Binds d)
                   (BackendWrapper.Execute d) (BackendWrapper.Executes d)
                   (BackendWrapper.Fields d))
        else Ok d) ;;
  d <- (if Byte.eqb msgType "P"%byte
        then m <- assertParse msg ;;
             Ok (BackendWrapper.mkDecoded P (BackendWrapper.PasswordMessage d)
                   m (BackendWrapper.Parses d ++ [m])
                   (BackendWrapper.Bind d) (BackendWrapper.Binds d)
                   (BackendWrapper.Execute d) (BackendWrapper.Executes d)
                   (BackendWrapper.Fields d))
        else Ok d) ;;
  d <- (if Byte.eqb msgType "B"%byte
        then m <- assertBind msg ;;
             Ok (BackendWrapper.mkDecoded P (BackendWrapper.PasswordMessage d)
                   (BackendWrapper.Parse d) (BackendWrapper.Parses d)
                   m (BackendWrapper.Binds d ++ [m])
                   (BackendWrapper.Execute d) (BackendWrapper.Executes d)
                   (BackendWrapper.Fields d))
        else Ok d) ;;
  if Byte.eqb msgType "E"%byte
  then m <- assertExecute msg ;;
       Ok (BackendWrapper.mkDecoded P (BackendWrapper.PasswordMessage d)
             (BackendWrapper.Parse d) (BackendWrapper.Parses d)
             (BackendWrapper.Bind d) (BackendWrapper.Binds d)
             m (BackendWrapper.Executes d ++ [m])
             (BackendWrapper.Fields d))
  else Ok d.

(** The request-side framing loop, [for i := 0; i < len(bufferCopy)-5; { ... }],
    from position [i] on.  Besides the wrapper it returns the bounds [(lo, hi)]
    of every frame [buffer[lo:hi]] it handed to the translation, in order. *)
Fixpoint frameRequests (fuel : nat) (buffer : slice) (i : Z)
    (pg : BackendWrapper.t) (frames : list (Z * Z))
    : run (BackendWrapper.t * list (Z * Z)) :=
  if i <? len buffer - 5 then
    match fuel with
    | O => OutOfFuel
    | S fuel' =>
        msgType <- index buffer i ;;
        rest <- slice_from buffer (i + 1) ;;
        n <- Uint32 rest ;;
        let bodyLen := n - 4 in
        if len buffer <? i + bodyLen + 5
        then Ok (BackendWrapper.mk P msgType bodyLen (BackendWrapper.PacketTypes pg)
                   (BackendWrapper.Decoded pg), frames)
        else
          frame <- reslice buffer i (i + bodyLen + 5) ;;
          let '(d, msg, _) :=
            TranslateToReadableBackend msgType (BackendWrapper.Decoded pg) (elems frame) in
          d <- storeBackendMessage msgType msg d ;;
          frameRequests fuel' buffer (i + (5 + bodyLen))
            (BackendWrapper.mk P msgType bodyLen
               (BackendWrapper.PacketTypes pg ++ [string_of_byte_rune msgType]) d)
            (frames ++ [(i, i + bodyLen + 5)])
    end
  else Ok (pg, frames).

(** The locals of the response-side loop: the wrapper, [ps] and [dataRows]. *)
Record responseScratch : Type := mkScratch {
  wrapper : FrontendWrapper.t;
  ps : list ParameterStatus;
  dataRows : list DataRow
}.

(** What one iteration of the response loop does after a translation that
    returned no error. *)
Definition storeBackendMessageResponse (msgType : byte) (msg : BackendMessage)
    (d : FrontendWrapper.decoded) (ps : list ParameterStatus) (dataRows : list DataRow)
    : run (FrontendWrapper.decoded * list ParameterStatus * list DataRow) :=
  let ps := if String.eqb (Name (FrontendWrapper.ParameterStatus_ d)) ""
            then ps else ps ++ [FrontendWrapper.ParameterStatus_ d] in
  d <- (if Byte.eqb msgType "C"%byte
        then m <- assertCommandComplete msg ;;
             Ok (FrontendWrapper.mkDecoded P (FrontendWrapper.ParameterStatus_ d)
                   (FrontendWrapper.ParameterStatusCombined d)
                   m (FrontendWrapper.CommandCompletes d ++ [m])
                   (FrontendWrapper.DataRow_ d) (FrontendWrapper.DataRows d)
                   (FrontendWrapper.Fields d))
        else Ok d) ;;
  let dataRows :=
    if Byte.eqb msgType "D"%byte
    then match RowValues (FrontendWrapper.DataRow_ d) with
         | Some values => dataRows ++ [{| RowValues := Some values |}]
         | None => dataRows
         end
    else dataRows in
  Ok (d, ps, dataRows).

(** The response-side framing loop, from position [i] on, with the bounds of
    the frames handed to the translation. *)
Fixpoint frameResponses (fuel : nat) (buffer : slice) (i : Z)
    (sc : responseScratch) (frames : list (Z * Z))
    : run (responseScratch * list (Z * Z)) :=
  if i <? len buffer - 5 then
    match fuel with
    | O => OutOfFuel
    | S fuel' =>
        let pg := wrapper sc in
        msgType <- index buffer i ;;
        rest <- slice_from buffer (i + 1) ;;
        n <- Uint32 rest ;;
        let bodyLen := n - 4 in
        frame <- reslice buffer i (i + bodyLen + 5) ;;
        let frames := frames ++ [(i, i + bodyLen + 5)] in
        let '(d, msg, err) :=
          TranslateToReadableResponse msgType (FrontendWrapper.Decoded pg) (elems frame) in
        match err with
        | Some _ =>
            Ok (mkScratch (FrontendWrapper.mk P msgType bodyLen
                             (FrontendWrapper.PacketTypes pg) d)
                          (ps sc) (dataRows sc), frames)
        | None =>
            '(d, ps', dataRows') <-
              storeBackendMessageResponse msgType msg d (ps sc) (dataRows sc) ;;
            frameResponses fuel' buffer (i + (5 + bodyLen))
              (mkScratch (FrontendWrapper.mk P msgType bodyLen
                            (FrontendWrapper.PacketTypes pg ++ [string_of_byte_rune msgType]) d)
                         ps' dataRows')
              frames
        end
    end
  else Ok (sc, frames).

(** [pgMock.PacketTypes[0]] *)
Definition firstPacketType (packetTypes : list string) : run string :=
  match packetTypes with
  | t :: _ => Ok t
  | [] => Panic IndexOutOfRange
  end.

Definition withPayloadBackend (m : Backend.t) (payload : string) : Backend.t :=
  Backend.mk P (Backend.PacketTypes m) (Backend.Identfier m) (Backend.Length m)
    payload (Backend.Bind m) (Backend.Binds m) (Backend.PasswordMessage m)
    (Backend.Execute m) (Backend.Executes m) (Backend.Parse m) (Backend.Parses m)
    (Backend.MsgType m) (Backend.Fields m).

Definition withPayloadFrontend (m : Frontend.t) (payload : string) : Frontend.t :=
  Frontend.mk P (Frontend.PacketTypes m) (Frontend.Identfier m) (Frontend.Length m)
    payload (Frontend.CommandComplete m) (Frontend.CommandCompletes m)
    (Frontend.DataRow_ m) (Frontend.DataRows m) (Frontend.ParameterStatusCombined m)
    (Frontend.MsgType m) (Frontend.Fields m).

(** The request entry built after the framing loop ([Payload] is left out). *)
Definition clientRequestEntry (requestBuffer : slice) (pg : BackendWrapper.t) : Backend.t :=
  let d := BackendWrapper.Decoded pg in
  Backend.mk P (BackendWrapper.PacketTypes pg) "ClientRequest"
    (uint32 (len requestBuffer)) ""
    (BackendWrapper.Bind d) (BackendWrapper.Binds d)
    (BackendWrapper.PasswordMessage d)
    (BackendWrapper.Execute d) (BackendWrapper.Executes d)
    (BackendWrapper.Parse d) (BackendWrapper.Parses d)
    (BackendWrapper.MsgType pg) (BackendWrapper.Fields d).

(** The entry recorded for the buffer the relay is started with: it copies the
    wrapper left by [DecodeStartupMessage], but not [Binds], [Executes] and
    [Parses]. *)
Definition firstRequestEntry (requestBuffer : slice) (pg : BackendWrapper.t)
    (bufStr : string) : Backend.t :=
  let d := BackendWrapper.Decoded pg in
  Backend.mk P (BackendWrapper.PacketTypes pg) "StartupRequest"
    (uint32 (len requestBuffer)) bufStr
    (BackendWrapper.Bind d) []
    (BackendWrapper.PasswordMessage d)
    (BackendWrapper.Execute d) []
    (BackendWrapper.Parse d) []
    (BackendWrapper.MsgType pg) (BackendWrapper.Fields d).

(** [&models.Backend{Identfier: "StartupRequest", Payload: bufStr}] *)
Definition startupRequestEntry (bufStr : string) : Backend.t :=
  Backend.mk P [] "StartupRequest" 0 bufStr zeroBind [] zeroPasswordMessage
    zeroExecute [] zeroParse [] x00 zeroBackendFields.

(** The response entry built after the framing loop ([Payload] is left out). *)
Definition serverResponseEntry (requestBuffer : slice) (pg : FrontendWrapper.t) : Frontend.t :=
  let d := FrontendWrapper.Decoded pg in
  Frontend.mk P (FrontendWrapper.PacketTypes pg) "ServerResponse"
    (uint32 (len requestBuffer)) ""
    (FrontendWrapper.CommandComplete d) (FrontendWrapper.CommandCompletes d)
    (FrontendWrapper.DataRow_ d) (FrontendWrapper.DataRows d)
    (FrontendWrapper.ParameterStatusCombined d)
    (FrontendWrapper.MsgType pg) (FrontendWrapper.Fields d).

(** [&models.Frontend{Payload: bufStr}] *)
Definition rawResponseEntry (bufStr : string) : Frontend.t :=
  withPayloadFrontend Frontend.zero bufStr.

(** The round-trip guard of the request side:
    [if len(afterEncoded) != len(buffer) && pgMock.PacketTypes[0] != "p"]. *)
Definition guardRequest (afterEncoded : list byte) (buffer : slice) (bufStr : string)
    (pgMock : Backend.t) : run Backend.t :=
  fallback <-
    (if negb (Z.of_nat (List.length afterEncoded) =? len buffer)
     then t <- firstPacketType (Backend.PacketTypes pgMock) ;;
          Ok (negb (String.eqb t "p"))
     else Ok false) ;;
  Ok (if fallback then withPayloadBackend pgMock bufStr else pgMock).

(** The guard of the response side:
    [if (len(afterEncoded) != len(buffer) && pgMock.PacketTypes[0] != "R")
        || len(pgMock.DataRows) > 0]. *)
Definition guardResponse (afterEncoded : list byte) (buffer : slice) (bufStr : string)
    (pgMock : Frontend.t) : run Frontend.t :=
  mismatch <-
    (if negb (Z.of_nat (List.length afterEncoded) =? len buffer)
     then t <- firstPacketType (Frontend.PacketTypes pgMock) ;;
          Ok (negb (String.eqb t "R"))
     else Ok false) ;;
  Ok (if mismatch || (0 <? Z.of_nat (List.length (Frontend.DataRows pgMock)))
      then withPayloadFrontend pgMock bufStr else pgMock).

(** The request entry of a buffer that goes through the framing loop. *)
Definition decodeRequestBuffer (requestBuffer buffer : slice) (bufStr : string)
    : run Backend.t :=
  '(pg, _) <- frameRequests (List.length (elems buffer)) buffer 0 NewBackend [] ;;
  let pgMock := clientRequestEntry requestBuffer pg in
  let '(afterEncoded, _) := PostgresDecoderBackend pgMock in
  guardRequest afterEncoded buffer bufStr pgMock.

(** [if len(ps) > 0 { ... }] and [if len(dataRows) > 0 { ... }] *)
Definition combineScratch (sc : responseScratch) : FrontendWrapper.t :=
  let pg := wrapper sc in
  let d := FrontendWrapper.Decoded pg in
  FrontendWrapper.mk P (FrontendWrapper.MsgType pg) (FrontendWrapper.BodyLen pg)
    (FrontendWrapper.PacketTypes pg)
    (FrontendWrapper.mkDecoded P (FrontendWrapper.ParameterStatus_ d)
       (if 0 <? Z.of_nat (List.length (ps sc))
        then ps sc else FrontendWrapper.ParameterStatusCombined d)
       (FrontendWrapper.CommandComplete d) (FrontendWrapper.CommandCompletes d)
       (FrontendWrapper.DataRow_ d)
       (if 0 <? Z.of_nat (List.length (dataRows sc))
        then dataRows sc else FrontendWrapper.DataRows d)
       (FrontendWrapper.Fields d)).

(** The response entry of a buffer that goes through the framing loop. *)
Definition decodeResponseBuffer (requestBuffer buffer : slice) (bufStr : string)
    : run Frontend.t :=
  '(sc, _) <- frameResponses (List.length (elems buffer)) buffer 0
                (mkScratch NewFrontend [] []) [] ;;
  let pgMock := serverResponseEntry requestBuffer (combineScratch sc) in
  let '(afterEncoded, _) := PostgresDecoderFrontend pgMock in
  guardResponse afterEncoded buffer bufStr pgMock.

(** The locals of the relay loop and what it has done to its collaborators:
    the buffers written to either connection, the mocks handed to
    [h.AppendMocks], and whether the connections were closed. *)
Record Relay : Type := mkRelay {
  pgRequests : list Backend.t;
  pgResponses : list Frontend.t;
  isPreviousChunkRequest : bool;
  reqTimestampMock : time;
  resTimestampMock : time;
  destWritten : list (list byte);
  clientWritten : list (list byte);
  appended : list Mock.t;
  closed : bool
}.

(** What the [select] receives.  A buffer comes with the outcome of forwarding
    it to the peer, a response buffer also with the two clock readings. *)
Inductive Event : Type :=
| sigChan
| clientBufferChannel (buffer : slice) (writeErr : option error)
| destBufferChannel (buffer : slice) (now1 now2 : Z) (writeErr : option error)
| errChannel (err : error).

(** Whether the loop goes on, or the function has returned. *)
Inductive status : Type :=
| Running
| Returned (err : option error).

(** [!isPreviousChunkRequest && len(pgRequests) > 0 && len(pgResponses) > 0] *)
Definition flushCondition (st : Relay) : bool :=
  negb (isPreviousChunkRequest st)
  && (0 <? Z.of_nat (List.length (pgRequests st)))
  && (0 <? Z.of_nat (List.length (pgResponses st))).

Definition chunkMock (st : Relay) : Mock.t :=
  {| Mock.Version := GetVersion;
     Mock.Name := "mocks";
     Mock.Kind := models_Postgres;
     Mock.Spec := {| Mock.PostgresRequests := pgRequests st;
                     Mock.PostgresResponses := pgResponses st;
                     Mock.ReqTimestampMock := reqTimestampMock st;
                     Mock.ResTimestampMock := resTimestampMock st;
                     Mock.Metadata := [("type", "config")] |} |}.

(** The flush block both the signal case and the client case start with:
    append the chunk as a mock and empty both lists. *)
Definition flushChunk (st : Relay) : Relay :=
  if flushCondition st
  then mkRelay [] [] (isPreviousChunkRequest st)
         (reqTimestampMock st) (resTimestampMock st)
         (destWritten st) (clientWritten st)
         (appended st ++ [chunkMock st]) (closed st)
  else st.

Definition onSignal (st : Relay) : status * Relay :=
  if flushCondition st
  then let st' := flushChunk st in
       (Returned None,
        mkRelay (pgRequests st') (pgResponses st') (isPreviousChunkRequest st')
          (reqTimestampMock st') (resTimestampMock st')
          (destWritten st') (clientWritten st') (appended st') true)
  else (Running, st).

(** The entries a client buffer adds to [pgRequests]. *)
Definition recordRequest (requestBuffer buffer : slice) : run (list Backend.t) :=
  let bufStr := EncodeToString (elems buffer) in
  if negb (String.eqb bufStr "") then
    decodedEntries <-
      (if negb (isStartupPacket (elems buffer)) && (5 <? len buffer)
       then pgMock <- decodeRequestBuffer requestBuffer buffer bufStr ;; Ok [pgMock]
       else Ok []) ;;
    Ok (decodedEntries
        ++ (if isStartupPacket (elems buffer) then [startupRequestEntry bufStr] else []))
  else Ok [].

Definition onClientBuffer (requestBuffer : slice) (st : Relay) (buffer : slice)
    (writeErr : option error) : run (status * Relay) :=
  match writeErr with
  | Some err => Ok (Returned (Some err), st)
  | None =>
      let st := flushChunk st in
      entries <- recordRequest requestBuffer buffer ;;
      Ok (Running,
          mkRelay (pgRequests st ++ entries) (pgResponses st) true
            (reqTimestampMock st) (resTimestampMock st)
            (destWritten st ++ [elems buffer]) (clientWritten st)
            (appended st) (closed st))
  end.

(** The entries a server buffer adds to [pgResponses]. *)
Definition recordResponse (requestBuffer buffer : slice) : run (list Frontend.t) :=
  let bufStr := EncodeToString (elems buffer) in
  if negb (String.eqb bufStr "") then
    decodedEntries <-
      (if negb (isStartupPacket (elems buffer)) && (5 <? len buffer)
          && negb (String.eqb bufStr "Tg==")
       then pgMock <- decodeResponseBuffer requestBuffer buffer bufStr ;; Ok [pgMock]
       else Ok []) ;;
    Ok (decodedEntries
        ++ (if String.eqb bufStr "Tg==" || (len buffer <=? 5)
            then [rawResponseEntry bufStr] else []))
  else Ok [].

Definition onDestBuffer (requestBuffer : slice) (st : Relay) (buffer : slice)
    (now1 now2 : Z) (writeErr : option error) : run (status * Relay) :=
  let reqTimestamp :=
    if isPreviousChunkRequest st then Some now1 else reqTimestampMock st in
  match writeErr with
  | Some err =>
      Ok (Returned (Some err),
          mkRelay (pgRequests st) (pgResponses st) (isPreviousChunkRequest st)
            reqTimestamp (resTimestampMock st)
            (destWritten st) (clientWritten st) (appended st) (closed st))
  | None =>
      entries <- recordResponse requestBuffer buffer ;;
      Ok (Running,
          mkRelay (pgRequests st) (pgResponses st ++ entries) false
            reqTimestamp (Some now2)
            (destWritten st) (clientWritten st ++ [elems buffer])
            (appended st) (closed st))
  end.

(** One turn of the [for { select { ... } }] loop. *)
Definition step (requestBuffer : slice) (st : Relay) (ev : Event) : run (status * Relay) :=
  match ev with
  | sigChan => Ok (onSignal st)
  | clientBufferChannel buffer writeErr => onClientBuffer requestBuffer st buffer writeErr
  | destBufferChannel buffer now1 now2 writeErr =>
      onDestBuffer requestBuffer st buffer now1 now2 writeErr
  | errChannel err => Ok (Returned (Some err), st)
  end.

(** The code before the loop: record the first buffer and forward it. *)
Definition start (requestBuffer : slice) (now : Z) (writeErr : option error)
    : status * Relay :=
  let bufStr := EncodeToString (elems requestBuffer) in
  let '(pg, _) := DecodeStartupMessage NewBackend (elems requestBuffer) in
  let requests :=
    if negb (String.eqb bufStr "")
    then [firstRequestEntry requestBuffer pg bufStr] else [] in
  match writeErr with
  | Some err => (Returned (Some err), mkRelay requests [] false None None [] [] [] false)
  | None =>
      (Running,
       mkRelay requests [] false (Some now) None [elems requestBuffer] [] [] false)
  end.

(** The loop run over the events [evs], as far as they go. *)
Fixpoint runRelay (requestBuffer : slice) (st : Relay) (evs : list Event)
    : run (status * Relay) :=
  match evs with
  | [] => Ok (Running, st)
  | ev :: evs' =>
      '(s, st') <- step requestBuffer st ev ;;
      match s with
      | Running => runRelay requestBuffer st' evs'
      | Returned err => Ok (Returned err, st')
      end
  end.

(** [encodePostgresOutgoing], called by [ProcessOutgoing] in RECORD mode: the
    code before the loop, then the loop over the events delivered to it. *)
Definition encodePostgresOutgoing (requestBuffer : slice) (now : Z)
    (writeErr : option error) (evs : list Event) : run (status * Relay) :=
  match start requestBuffer now writeErr with
  | (Running, st) => runRelay requestBuffer st evs
  | (Returned err, st) => Ok (Returned err, st)
  end.

(** The states in which the loop waits on its [select], each with the event
    it handled last ([None] before the first one). *)
Inductive reachable (requestBuffer : slice) : option Event -> Relay -> Prop :=
| reachable_start (now : Z) (st : Relay) :
    start requestBuffer now None = (Running, st) ->
    reachable requestBuffer None st
| reachable_step (prev : option Event) (st : Relay) (ev : Event) (st' : Relay) :
    reachable requestBuffer prev st ->
    step requestBuffer st ev = Ok (Running, st') ->
    reachable requestBuffer (Some ev) st'.

End RecordMode.

(** *** TEST mode: [decodePostgresOutgoing] *)

Section ReplayMode.
Context {P : Pgproto3} {C : Collaborators}.

(** What the replayer asks of its environment.  The deadline is the duration
    added to [time.Now()], in milliseconds; a read also polls
    [h.IsUserAppTerminateInitiated()]. *)
Inductive Call : Type :=
| callSetReadDeadline (ms : Z)
| callReadBytes
| callMatchingReadablePG (pgRequests : list (list byte))
| callPassthrough (pgRequests : list (list byte))
| callClientWrite (encoded : list byte).

(** What the environment answers.  [reply] is what the destination sent back
    during a passthrough. *)
Inductive Answer : Type :=
| ansSetReadDeadline (err : option error)
| ansReadBytes (buffer : list byte) (err : option error) (terminateInitiated : bool)
| ansMatchingReadablePG (matched : bool) (pgResponses : list Frontend.t) (err : option error)
| ansPassthrough (reply : list byte) (err : option error)
| ansClientWrite (err : option error).

(** Where the replayer stands: at one of its calls, with its locals, or
    returned. *)
Inductive Replay : Type :=
| atSetReadDeadline (pgRequests : list (list byte))
| atReadBytes (pgRequests : list (list byte))
| atMatchingReadablePG (pgRequests : list (list byte))
| atPassthrough (pgRequests : list (list byte))
| atClientWrite (encoded : list byte) (rest : list Frontend.t)
| returned (err : error).

Definition pendingCall (r : Replay) : option Call :=
  match r with
  | atSetReadDeadline _ => Some (callSetReadDeadline 10)
  | atReadBytes _ => Some callReadBytes
  | atMatchingReadablePG pgRequests => Some (callMatchingReadablePG pgRequests)
  | atPassthrough pgRequests => Some (callPassthrough pgRequests)
  | atClientWrite encoded _ => Some (callClientWrite encoded)
  | returned _ => None
  end.

(** The bytes for one response entry: [PostgresDecoder(pgResponse.Payload)],
    replaced by [PostgresDecoderFrontend(pgResponse)] when
    [len(pgResponse.PacketTypes) > 0 && len(pgResponse.Payload) == 0]. *)
Definition encodeResponse (pgResponse : Frontend.t) : list byte * option error :=
  let '(encoded, err) := PostgresDecoder (Frontend.Payload pgResponse) in
  if (0 <? Z.of_nat (List.length (Frontend.PacketTypes pgResponse)))
     && (Z.of_nat (String.length (Frontend.Payload pgResponse)) =? 0)
  then PostgresDecoderFrontend pgResponse
  else (encoded, err).

(** The [for _, pgResponse := range pgResponses] loop up to its next write;
    after the last entry [pgRequests] is emptied and the outer loop restarts. *)
Definition replyNext (rest : list Frontend.t) : Replay :=
  match rest with
  | [] => atSetReadDeadline []
  | pgResponse :: rest' =>
      match encodeResponse pgResponse with
      | (_, Some err) => returned err
      | (encoded, None) => atClientWrite encoded rest'
      end
  end.

(** The replayer resumed with the answer to its pending call ([None] when the
    answer is not one to that call). *)
Definition resume (r : Replay) (a : Answer) : option Replay :=
  match r, a with
  | atSetReadDeadline pgRequests, ansSetReadDeadline err =>
      Some (match err with
            | Some e => returned e
            | None => atReadBytes pgRequests
            end)
  | atReadBytes pgRequests, ansReadBytes buffer err terminateInitiated =>
      Some (match err with
            | Some e =>
                if negb terminateInitiated && negb (isTimeout err) then returned e
                else if isTimeout err
                     then if Z.of_nat (List.length pgRequests) =? 0
                          then atSetReadDeadline pgRequests
                          else atMatchingReadablePG pgRequests
                     else atReadBytes (pgRequests ++ [buffer])
            | None => atReadBytes (pgRequests ++ [buffer])
            end)
  | atMatchingReadablePG pgRequests, ansMatchingReadablePG matched pgResponses err =>
      Some (match err with
            | Some e =>
                returned (other_error
                            ("error while matching tcs mocks " ++ error_string e)%string)
            | None =>
                if negb matched then atPassthrough pgRequests
                else replyNext pgResponses
            end)
  | atPassthrough pgRequests, ansPassthrough _ err =>
      Some (match err with
            | Some e => returned e
            | None => atSetReadDeadline pgRequests
            end)
  | atClientWrite _ rest, ansClientWrite err =>
      Some (match err with
            | Some e => returned e
            | None => replyNext rest
            end)
  | _, _ => None
  end.

(** The two connections as the replay session leaves them: the buffers
    written to each, in order. *)
Record Wire : Type := mkWire {
  toDest : list (list byte);
  toClient : list (list byte)
}.

(** Modelled from the spec: [util.Passthrough] is not among the sources.  "On
    no match, pass the entire captured request burst through to the real
    destination verbatim and relay its real reply back untouched": the chunks
    go to the destination in order and the reply goes to the client. *)
Definition Passthrough (w : Wire) (pgRequests : list (list byte)) (reply : list byte)
    : Wire :=
  mkWire (toDest w ++ pgRequests) (toClient w ++ [reply]).

(** The effect of an answered call on the connections. *)
Definition wireAfter (w : Wire) (r : Replay) (a : Answer) : Wire :=
  match r, a with
  | atPassthrough pgRequests, ansPassthrough reply None => Passthrough w pgRequests reply
  | atClientWrite encoded _, ansClientWrite None => mkWire (toDest w) (toClient w ++ [encoded])
  | _, _ => w
  end.

(** A replay session: the replayer, the connections, and the calls made so
    far. *)
Record Session : Type := mkSession {
  replayer : Replay;
  wire : Wire;
  calls : list Call
}.

Definition answer (s : Session) (a : Answer) : option Session :=
  match pendingCall (replayer s), resume (replayer s) a with
  | Some c, Some r' => Some (mkSession r' (wireAfter (wire s) (replayer s) a) (calls s ++ [c]))
  | _, _ => None
  end.

Fixpoint answers (s : Session) (l : list Answer) : option Session :=
  match l with
  | [] => Some s
  | a :: l' =>
      match answer s a with
      | Some s' => answers s' l'
      | None => None
      end
  end.

(** [pgRequests := [][]byte{requestBuffer}] and the loop is entered. *)
Definition decodePostgresOutgoing (requestBuffer : list byte) : Session :=
  mkSession (atSetReadDeadline [requestBuffer]) (mkWire [] []) [].

(** The matcher calls among [calls], with their arguments. *)
Definition matcherCalls (l : list Call) : list (list (list byte)) :=
  flat_map (fun c => match c with
                     | callMatchingReadablePG pgRequests => [pgRequests]
                     | _ => []
                     end) l.

End ReplayMode.

(** *** [ReadBuffConn] *)

(** One call of [util.ReadBytes] as [ReadBuffConn] sees it: the buffer, the
    error, and what [h.IsUserAppTerminateInitiated()] answers when it is
    polled (it is polled only after an error). *)
Record ReadOutcome : Type := mkRead {
  readBuffer : slice;
  readErr : option error;
  readTerminateInitiated : bool
}.

(** What a reader has done: the buffers sent on [bufferChannel], the errors
    sent on [errChannel], and the error it returned ([None] while it is still
    reading). *)
Record Reader : Type := mkReader {
  sentBuffers : list slice;
  sentErrors : list error;
  readerReturned : option error
}.

(** [ReadBuffConn] over the outcomes of its reads. *)
Fixpoint ReadBuffConn (reads : list ReadOutcome) : Reader :=
  match reads with
  | [] => mkReader [] [] None
  | r :: reads' =>
      let publish :=
        let rest := ReadBuffConn reads' in
        mkReader (readBuffer r :: sentBuffers rest) (sentErrors rest)
          (readerReturned rest) in
      match readErr r with
      | Some err =>
          if negb (readTerminateInitiated r)
          then match err with
               | io_EOF => mkReader [] [] (Some err)
               | _ => mkReader [] [err] (Some err)
               end
          else publish
      | None => publish
      end
  end.

(** A read that does not stop the reader: no error, or an error after the
    application was asked to terminate. *)
Definition readGoesOn (r : ReadOutcome) : Prop :=
  readErr r = None \/ readTerminateInitiated r = true.

(** *** What a run of the relay leaves behind *)

Section Observations.
Context {P : Pgproto3} {C : Collaborators}.

(** The tag byte at [lo], as the loops append it to [PacketTypes]. *)
Definition tagAt (buffer : slice) (lo : Z) : string :=
  match nth_error (elems buffer) (Z.to_nat lo) with
  | Some b => string_of_byte_rune b
  | None => ""
  end.

(** Where the header at [lo] says its frame ends: [lo + BodyLen + 5]. *)
Definition frameEnd (buffer : slice) (lo : Z) : Z :=
  match (rest <- slice_from buffer (lo + 1) ;; Uint32 rest) with
  | Ok n => lo + (n - 4) + 5
  | _ => lo
  end.

(** Frames that follow one another without gap or overlap, from [from] on,
    each as long as its header says. *)
Fixpoint tiles (buffer : slice) (from : Z) (frames : list (Z * Z)) : Prop :=
  match frames with
  | [] => True
  | (lo, hi) :: frames' =>
      lo = from /\ lo < hi /\ hi = frameEnd buffer lo /\ tiles buffer hi frames'
  end.

(** The end of the last frame ([from] when there is none). *)
Definition endOf (from : Z) (frames : list (Z * Z)) : Z :=
  last (map snd frames) from.

(** The buffers of the client events, and of the server events, in order. *)
Definition clientBuffers (evs : list Event) : list (list byte) :=
  flat_map (fun ev => match ev with
                      | clientBufferChannel buffer _ => [elems buffer]
                      | _ => []
                      end) evs.

Definition destBuffers (evs : list Event) : list (list byte) :=
  flat_map (fun ev => match ev with
                      | destBufferChannel buffer _ _ _ => [elems buffer]
                      | _ => []
                      end) evs.

(** The entries the client events, and the server events, add. *)
Definition requestEntries (requestBuffer : slice) (evs : list Event) : list Backend.t :=
  flat_map (fun ev => match ev with
                      | clientBufferChannel buffer _ =>
                          match recordRequest requestBuffer buffer with
                          | Ok entries => entries
                          | _ => []
                          end
                      | _ => []
                      end) evs.

Definition responseEntries (requestBuffer : slice) (evs : list Event) : list Frontend.t :=
  flat_map (fun ev => match ev with
                      | destBufferChannel buffer _ _ _ =>
                          match recordResponse requestBuffer buffer with
                          | Ok entries => entries
                          | _ => []
                          end
                      | _ => []
                      end) evs.

(** Every request entry, and every response entry, the relay holds: those of
    the mocks appended so far, then the pending ones. *)
Definition allRequests (st : Relay) : list Backend.t :=
  flat_map (fun m => Mock.PostgresRequests (Mock.Spec m)) (appended st) ++ pgRequests st.

Definition allResponses (st : Relay) : list Frontend.t :=
  flat_map (fun m => Mock.PostgresResponses (Mock.Spec m)) (appended st) ++ pgResponses st.

(** A mock as the relay appends them. *)
Definition completeMock (m : Mock.t) : Prop :=
  Mock.PostgresRequests (Mock.Spec m) <> []
  /\ Mock.PostgresResponses (Mock.Spec m) <> []
  /\ Mock.ReqTimestampMock (Mock.Spec m) <> None
  /\ Mock.ResTimestampMock (Mock.Spec m) <> None
  /\ Mock.Name m = "mocks"
  /\ Mock.Kind m = models_Postgres
  /\ Mock.Metadata (Mock.Spec m) = [("type", "config")].

(** What holds whenever the loop waits for its next event. *)
Definition relayInvariant (st : Relay) : Prop :=
  reqTimestampMock st <> None
  /\ (pgResponses st <> [] -> resTimestampMock st <> None)
  /\ Forall completeMock (appended st)
  /\ closed st = false.

(** The clock readings of the events never go back, starting from [t]. *)
Fixpoint clockOrdered (t : Z) (evs : list Event) : Prop :=
  match evs with
  | [] => True
  | destBufferChannel _ now1 now2 _ :: evs' =>
      t <= now1 /\ now1 <= now2 /\ clockOrdered now2 evs'
  | _ :: evs' => clockOrdered t evs'
  end.

(** Both timestamps of a mock are set, the request's not after the
    response's. *)
Definition timestampsOrdered (m : Mock.t) : Prop :=
  match Mock.ReqTimestampMock (Mock.Spec m), Mock.ResTimestampMock (Mock.Spec m) with
  | Some req, Some res => req <= res
  | _, _ => False
  end.

(** The timestamps the loop holds at clock reading [t]. *)
Definition clockInvariant (t : Z) (st : Relay) : Prop :=
  exists req,
    reqTimestampMock st = Some req
    /\ req <= t
    /\ (pgResponses st <> [] -> exists res, resTimestampMock st = Some res /\ req <= res)
    /\ Forall timestampsOrdered (appended st).

End Observations.

(** *** What a replay session can be doing *)

Section ReplayObservations.
Context {P : Pgproto3}.

(** What a replayer that has only seen matches can be waiting for. *)
Definition notPassingThrough (r : Replay) : Prop :=
  match r with
  | atPassthrough _ => False
  | _ => True
  end.

(** An answer other than "no match, no error" from the matcher. *)
Definition notUnmatched (a : Answer) : Prop :=
  match a with
  | ansMatchingReadablePG false _ None => False
  | _ => True
  end.

(** A call that carries a request list carries a non-empty one. *)
Definition callHasRequests (c : Call) : Prop :=
  match c with
  | callMatchingReadablePG pgRequests => pgRequests <> []
  | callPassthrough pgRequests => pgRequests <> []
  | _ => True
  end.

Definition replayHasRequests (r : Replay) : Prop :=
  match r with
  | atMatchingReadablePG pgRequests => pgRequests <> []
  | atPassthrough pgRequests => pgRequests <> []
  | _ => True
  end.

End ReplayObservations.

End postgresparser.

(** ** A stand-in codec

    The collaborators above are parameters of every statement below.  To run
    the definitions on concrete buffers they are instantiated here with a
    deliberately small codec: message structs are the raw frame bodies, the
    startup detector is [OutgoingType], a translation keeps the body of the
    frame under its tag, and re-encoding writes a bare five-byte header per
    packet type followed by a single zero byte (so a buffer survives the round
    trip in length exactly when each of its frames has a one-byte body). *)

Module StandIn.

#[export] Instance structs : Pgproto3 := {|
  PasswordMessageT := list byte;
  ParseT := list byte;
  BindT := list byte;
  ExecuteT := list byte;
  CommandCompleteT := list byte;
  BackendFields := unit;
  FrontendFields := unit;
  zeroPasswordMessage := [];
  zeroParse := [];
  zeroBind := [];
  zeroExecute := [];
  zeroCommandComplete := [];
  zeroBackendFields := tt;
  zeroFrontendFields := tt
|}.

Definition detectStartup (buffer : list byte) : bool :=
  match postgresparser.OutgoingType (bytes buffer) with
  | Ok b => b
  | _ => false
  end.

Definition translateBackend (msgType : byte) (d : BackendWrapper.decoded)
    (frame : list byte) : BackendWrapper.decoded * FrontendMessage * option error :=
  let body := skipn 5 frame in
  (d,
   if Byte.eqb msgType "p"%byte then ptrPasswordMessage body
   else if Byte.eqb msgType "P"%byte then ptrParse body
   else if Byte.eqb msgType "B"%byte then ptrBind body
   else if Byte.eqb msgType "E"%byte then ptrExecute body
   else ptrOtherFrontendMessage,
   None).

Definition translateResponse (msgType : byte) (d : FrontendWrapper.decoded)
    (frame : list byte) : FrontendWrapper.decoded * BackendMessage * option error :=
  let body := skipn 5 frame in
  if Byte.eqb msgType x00
  then (d, nilBackendMessage, Some (other_error "unknown message type"))
  else if Byte.eqb msgType "D"%byte
  then (FrontendWrapper.mkDecoded structs (FrontendWrapper.ParameterStatus_ d)
          (FrontendWrapper.ParameterStatusCombined d)
          (FrontendWrapper.CommandComplete d) (FrontendWrapper.CommandCompletes d)
          {| RowValues := Some [string_of_list_byte body] |}
          (FrontendWrapper.DataRows d) (FrontendWrapper.Fields d),
        ptrOtherBackendMessage, None)
  else if Byte.eqb msgType "C"%byte
  then (d, ptrCommandComplete body, None)
  else (d, ptrOtherBackendMessage, None).

Definition headers (packetTypes : list string) : list byte :=
  flat_map (fun t => list_byte_of_string t ++ [x00; x00; x00; x05; x00]) packetTypes.

#[export] Instance codec : Collaborators := {|
  isStartupPacket := detectStartup;
  NewBackend :=
    BackendWrapper.mk structs x00 0 []
      (BackendWrapper.mkDecoded structs [] [] [] [] [] [] [] tt);
  DecodeStartupMessage := fun pg _ => (pg, None);
  TranslateToReadableBackend := translateBackend;
  PostgresDecoderBackend := fun m => (headers (Backend.PacketTypes m), None);
  NewFrontend :=
    FrontendWrapper.mk structs x00 0 []
      (FrontendWrapper.mkDecoded structs zeroParameterStatus [] [] []
         zeroDataRow [] tt);
  TranslateToReadableResponse := translateResponse;
  PostgresDecoderFrontend := fun m => (headers (Frontend.PacketTypes m), None);
  PostgresDecoder := fun payload => (list_byte_of_string payload, None);
  GetVersion := "api.keploy.io/v1beta1";
  models_Postgres := "Postgres"
|}.

(** A frame: tag, big-endian length (body plus the four length bytes), body.
    Bodies here are shorter than 252 bytes. *)
Definition frame (tag : byte) (body : list byte) : list byte :=
  tag :: x00 :: x00 :: x00 :: byte_of_Z (Z.of_nat (List.length body) + 4) :: body.

(** A 60-byte startup message: length, protocol version 3.0, parameters. *)
Definition startup60 : list byte :=
  [x00; x00; x00; x3c; x00; x03; x00; x00] ++ repeat x00 52.


(** One exchange: a simple query, and the server's answer in one buffer. *)
Definition queryBuffer : slice :=
  bytes (frame "Q"%byte (list_byte_of_string "select 1")).

Definition answerBuffer : slice :=
  bytes (frame "C"%byte (list_byte_of_string "SELECT 1") ++ frame "Z"%byte ["I"%byte]).

(** A six-byte buffer whose only header declares a 96-byte body. *)
Definition truncated : list byte := ["Z"%byte; x00; x00; x00; x64; x00].

(** Two response entries of a recorded mock: one structural, one raw. *)
Definition structuralEntry : Frontend.t :=
  Frontend.mk structs ["C"; "Z"] "ServerResponse" 60 "" [] [] zeroDataRow [] []
    "Z"%byte tt.

Definition rawEntry : Frontend.t :=
  Frontend.mk structs ["D"] "ServerResponse" 60 "raw bytes" [] [] zeroDataRow [] []
    "D"%byte tt.

(** A 40-byte request burst. *)
Definition burst40 : list byte := frame "Q"%byte (repeat "x"%byte 35).

(** An extended-protocol request whose last frame, Sync, has no body. *)
Definition executeSync : slice :=
  bytes (frame "E"%byte [x00; x00; x00; x00; x00] ++ frame "S"%byte []).

(** An extended-protocol request: Parse, Bind, Sync. *)
Definition parseBindSync : slice :=
  bytes (frame "P"%byte ["x"%byte] ++ frame "B"%byte ["y"%byte; "z"%byte]
         ++ frame "S"%byte []).

(** A server answer whose second frame carries a tag the stand-in translation
    rejects. *)
Definition answerWithUnknownTag : slice :=
  bytes (frame "T"%byte ["c"%byte] ++ frame x00 ["?"%byte] ++ frame "Z"%byte ["I"%byte]).

(** The relay started on the startup message, and after further events. *)
Definition afterStart : postgresparser.Relay :=
  snd (postgresparser.start (bytes startup60) 0 None).

Definition afterEvents (evs : list postgresparser.Event) : postgresparser.Relay :=
  match postgresparser.encodePostgresOutgoing (bytes startup60) 0 None evs with
  | Ok (_, st) => st
  | _ => afterStart
  end.

Definition exchange : list postgresparser.Event :=
  [postgresparser.clientBufferChannel queryBuffer None;
   postgresparser.destBufferChannel answerBuffer 1 2 None].

(** The stand-in codec with a payload decoder that rejects the text "!". *)
Definition strictCodec : Collaborators := {|
  isStartupPacket := detectStartup;
  NewBackend := NewBackend (Collaborators := codec);
  DecodeStartupMessage := fun pg _ => (pg, None);
  TranslateToReadableBackend := translateBackend;
  PostgresDecoderBackend := fun m => (headers (Backend.PacketTypes m), None);
  NewFrontend := NewFrontend (Collaborators := codec);
  TranslateToReadableResponse := translateResponse;
  PostgresDecoderFrontend := fun m => (headers (Frontend.PacketTypes m), None);
  PostgresDecoder := fun payload =>
    if String.eqb payload "!"
    then ([], Some (other_error "illegal base64 data"))
    else (list_byte_of_string payload, None);
  GetVersion := "api.keploy.io/v1beta1";
  models_Postgres := "Postgres"
|}.



End StandIn.

(** * Properties *)

(** ** Go values *)

Lemma EncodeToString_nil_iff (src : list byte) :
  EncodeToString src = "" <-> src = [].
Proof.
  split.
  - destruct src as [|a [|b [|c rest]]]; simpl; intro H; try reflexivity; discriminate H.
  - intros ->. reflexivity.
Qed.

Lemma EncodeToString_eqb_empty (src : list byte) :
  String.eqb (EncodeToString src) "" = match src with [] => true | _ => false end.
Proof.
  destruct src as [|a [|b [|c rest]]]; reflexivity.
Qed.

Lemma EncodeToString_triple (a b c : byte) (rest : list byte) :
  exists c1 c2 c3 c4,
    EncodeToString (a :: b :: c :: rest)
    = String c1 (String c2 (String c3 (String c4 (EncodeToString rest)))).
Proof. do 4 eexists. reflexivity. Qed.

(** A buffer of more than three bytes never encodes to the four characters of
    the sentinel. *)
Lemma EncodeToString_long_not_sentinel (src : list byte) :
  (3 < List.length src)%nat -> String.eqb (EncodeToString src) "Tg==" = false.
Proof.
  intro Hlen.
  destruct src as [|a [|b [|c [|d rest]]]]; simpl in Hlen; try lia.
  apply String.eqb_neq. intro H.
  destruct (EncodeToString_triple a b c (d :: rest)) as (c1 & c2 & c3 & c4 & E).
  rewrite E in H. clear E.
  remember (EncodeToString (d :: rest)) as tail eqn:Etail.
  injection H as _ _ _ _ H. subst tail.
  apply EncodeToString_nil_iff in H. discriminate H.
Qed.

Lemma len_le_cap (s : slice) : len s <= cap s.
Proof. unfold len, cap. rewrite length_app. lia. Qed.

(** ** package mysqlparser *)

(** C9.  [decodeComInitDb] fails with the error "data too short for
    COM_INIT_DB" on every input shorter than two bytes, and on every input of
    at least two bytes it succeeds with [Status] the first byte and [DbName]
    the remaining bytes as a string. *)
Theorem decodeComInitDb_spec (data : list byte) :
  ((List.length data < 2)%nat ->
   mysqlparser.decodeComInitDb data = inr (other_error "data too short for COM_INIT_DB"))
  /\ ((2 <= List.length data)%nat ->
      exists status rest,
        data = status :: rest
        /\ mysqlparser.decodeComInitDb data
           = inl {| mysqlparser.Status := status;
                    mysqlparser.DbName := string_of_list_byte rest |}).
Proof.
  unfold mysqlparser.decodeComInitDb. split; intro H.
  - destruct (Z.ltb_spec (Z.of_nat (List.length data)) 2); [reflexivity | lia].
  - destruct data as [|status rest]; [simpl in H; lia|].
    exists status, rest. split; [reflexivity|].
    destruct (Z.ltb_spec (Z.of_nat (List.length (status :: rest))) 2); [lia | reflexivity].
Qed.

Lemma decodeComInitDb_spec_witness :
  mysqlparser.decodeComInitDb [x02; "m"%byte; "y"%byte; "d"%byte; "b"%byte]
  = inl {| mysqlparser.Status := x02; mysqlparser.DbName := "mydb" |}
  /\ mysqlparser.decodeComInitDb [x02]
     = inr (other_error "data too short for COM_INIT_DB").
Proof.
  split.
  - destruct (decodeComInitDb_spec [x02; "m"%byte; "y"%byte; "d"%byte; "b"%byte])
      as [_ H].
    destruct (H ltac:(simpl; lia)) as (status & rest & E & Hd).
    injection E as <- <-. exact Hd.
  - destruct (decodeComInitDb_spec [x02]) as [H _].
    exact (H ltac:(simpl; lia)).
Defined.

(** ** package postgresparser: RECORD mode *)

Import postgresparser.
Import StandIn.

Lemma short_loop_guard (buffer : slice) :
  len buffer < 5 -> (0 <? len buffer - 5) = false /\ (5 <? len buffer) = false.
Proof. intro H. split; apply Z.ltb_ge; lia. Qed.

(** C3.  On a buffer of fewer than five bytes both framing loops return at
    once, with no frame handed to the codec, no error and no panic; the
    request handler then records nothing but a startup entry (when the
    detector accepts the buffer) and the response handler records the buffer
    as a raw entry. *)
Theorem short_buffer_yields_no_frames {P : Pgproto3} {C : Collaborators}
    (requestBuffer buffer : slice) :
  len buffer < 5 ->
  (forall fuel pg frames, frameRequests fuel buffer 0 pg frames = Ok (pg, frames))
  /\ (forall fuel sc frames, frameResponses fuel buffer 0 sc frames = Ok (sc, frames))
  /\ recordRequest requestBuffer buffer
     = Ok (match elems buffer with
           | [] => []
           | _ => if isStartupPacket (elems buffer)
                  then [startupRequestEntry (EncodeToString (elems buffer))]
                  else []
           end)
  /\ recordResponse requestBuffer buffer
     = Ok (match elems buffer with
           | [] => []
           | _ => [rawResponseEntry (EncodeToString (elems buffer))]
           end).
Proof.
  intro Hshort. destruct (short_loop_guard buffer Hshort) as [Hloop Hlen].
  repeat split.
  - intros [|fuel] pg frames; simpl; rewrite Hloop; reflexivity.
  - intros [|fuel] sc frames; simpl; rewrite Hloop; reflexivity.
  - unfold recordRequest. rewrite EncodeToString_eqb_empty, Hlen, andb_false_r.
    destruct (elems buffer) as [|b l]; [reflexivity|]. simpl.
    destruct (isStartupPacket (b :: l)); reflexivity.
  - unfold recordResponse. rewrite EncodeToString_eqb_empty, Hlen.
    rewrite andb_false_r, andb_false_l.
    assert (Hle : (len buffer <=? 5) = true) by (apply Z.leb_le; lia).
    rewrite Hle, orb_true_r.
    destruct (elems buffer) as [|b l]; reflexivity.
Qed.

Lemma short_buffer_yields_no_frames_witness :
  let buffer := bytes ["Q"%byte; x00; x00; x00] in
  frameRequests (C := StandIn.codec) 4 buffer 0 NewBackend [] = Ok (NewBackend, [])
  /\ frameResponses (C := StandIn.codec) 4 buffer 0 (mkScratch NewFrontend [] []) []
     = Ok (mkScratch NewFrontend [] [], [])
  /\ recordRequest (C := StandIn.codec) (bytes StandIn.startup60) buffer = Ok []
  /\ recordResponse (C := StandIn.codec) (bytes StandIn.startup60) buffer
     = Ok [rawResponseEntry "UQAAAA=="].
Proof.
  intro buffer.
  destruct (short_buffer_yields_no_frames (C := StandIn.codec)
              (bytes StandIn.startup60) buffer ltac:(vm_compute; reflexivity))
    as (H1 & H2 & H3 & H4).
  split; [apply H1 | split; [apply H2 | split; [exact H3 | exact H4]]].
Defined.

Lemma OutgoingType_version (h0 h1 h2 h3 b0 b1 b2 b3 : byte) (rest sp : list byte) (v : Z) :
  Uint32 (bytes [b0; b1; b2; b3]) = Ok v ->
  OutgoingType (mkSlice (h0 :: h1 :: h2 :: h3 :: b0 :: b1 :: b2 :: b3 :: rest) sp)
  = Ok ((v =? 80877103) || (v =? ProtocolVersion)).
Proof.
  intro Hv. unfold OutgoingType.
  assert (Hlen : (len (mkSlice (h0 :: h1 :: h2 :: h3 :: b0 :: b1 :: b2 :: b3 :: rest) sp)
                  <? 8) = false).
  { apply Z.ltb_ge. unfold len. simpl elems. simpl List.length. lia. }
  rewrite Hlen. unfold reslice.
  assert (Hcap : (8 <=? cap (mkSlice (h0 :: h1 :: h2 :: h3 :: b0 :: b1 :: b2 :: b3 :: rest) sp))
                 = true).
  { apply Z.leb_le. unfold cap. simpl elems. simpl List.length. lia. }
  rewrite Hcap. simpl.
  unfold Uint32 in Hv. simpl in Hv. injection Hv as Hv.
  unfold Uint32. simpl elems. cbv beta iota. unfold bind. rewrite Hv.
  destruct (v =? 80877103); reflexivity.
Qed.

Lemma OutgoingType_short (buffer : slice) :
  len buffer < 8 -> OutgoingType buffer = Ok false.
Proof.
  intro H. unfold OutgoingType.
  destruct (Z.ltb_spec (len buffer) 8); [reflexivity | lia].
Qed.




(** *** The flush policy *)

Lemma flushCondition_true {P : Pgproto3} (st : Relay) :
  flushCondition st = true <->
  isPreviousChunkRequest st = false /\ pgRequests st <> [] /\ pgResponses st <> [].
Proof.
  unfold flushCondition. rewrite !andb_true_iff, negb_true_iff, !Z.ltb_lt.
  split.
  - intros [[Hprev Hreq] Hres]. repeat split; trivial.
    + intro E. rewrite E in Hreq. simpl in Hreq. lia.
    + intro E. rewrite E in Hres. simpl in Hres. lia.
  - intros (Hprev & Hreq & Hres). repeat split; trivial.
    + destruct (pgRequests st); [contradiction | simpl; lia].
    + destruct (pgResponses st); [contradiction | simpl; lia].
Qed.

Lemma flushChunk_appended {P : Pgproto3} {C : Collaborators} (st : Relay) :
  appended (flushChunk st)
  = if flushCondition st then appended st ++ [chunkMock st] else appended st.
Proof. unfold flushChunk. destruct (flushCondition st); reflexivity. Qed.

Lemma flushChunk_resets {P : Pgproto3} {C : Collaborators} (st : Relay) :
  flushCondition st = true ->
  pgRequests (flushChunk st) = [] /\ pgResponses (flushChunk st) = [].
Proof. intro H. unfold flushChunk. rewrite H. split; reflexivity. Qed.

Lemma snoc_neq {A : Type} (l : list A) (x : A) : l ++ [x] <> l.
Proof.
  intro E. apply (f_equal (@List.length A)) in E.
  rewrite length_app in E. simpl in E. lia.
Qed.

(** What the last event leaves behind: no response before the first event, a
    false flush condition after a signal that did not end the loop, and the
    request mark after a client buffer. *)
Lemma reachable_last_event {P : Pgproto3} {C : Collaborators}
    (requestBuffer : slice) (prev : option Event) (st : Relay) :
  reachable requestBuffer prev st ->
  match prev with
  | None => pgResponses st = []
  | Some sigChan => flushCondition st = false
  | Some (clientBufferChannel _ _) => isPreviousChunkRequest st = true
  | Some (destBufferChannel _ _ _ _) => True
  | Some (errChannel _) => False
  end.
Proof.
  intro H. destruct H as [now st Hstart | prev st ev st' _ Hstep].
  - unfold start in Hstart.
    destruct (DecodeStartupMessage NewBackend (elems requestBuffer)) as [pg e].
    injection Hstart as <-. reflexivity.
  - destruct ev as [| buffer w | buffer n1 n2 w | err]; simpl in Hstep.
    + unfold onSignal in Hstep. destruct (flushCondition st) eqn:E.
      * discriminate Hstep.
      * injection Hstep as <-. exact E.
    + unfold onClientBuffer in Hstep. destruct w; [discriminate Hstep|].
      destruct (recordRequest requestBuffer buffer); simpl in Hstep; try discriminate Hstep.
      injection Hstep as <-. reflexivity.
    + exact I.
    + discriminate Hstep.
Qed.

(** C4.  In the relay loop an event appends a mock only when both
    accumulated lists are non-empty and the event handled immediately before
    was a response read; the mock then holds exactly the two lists, and the
    flush leaves both lists empty (a client buffer that triggered the flush is
    recorded afterwards, into the emptied request list).  With an empty
    request list or an empty response list no mock is appended. *)
Theorem mock_appended_only_after_response {P : Pgproto3} {C : Collaborators}
    (requestBuffer : slice) (prev : option Event) (st : Relay) (ev : Event)
    (s : status) (st' : Relay) :
  reachable requestBuffer prev st ->
  step requestBuffer st ev = Ok (s, st') ->
  ((pgRequests st = [] \/ pgResponses st = []) -> appended st' = appended st)
  /\ (appended st' <> appended st ->
      pgRequests st <> [] /\ pgResponses st <> []
      /\ (exists buffer now1 now2 writeErr,
             prev = Some (destBufferChannel buffer now1 now2 writeErr))
      /\ appended st' = appended st ++ [chunkMock st]
      /\ pgRequests (flushChunk st) = [] /\ pgResponses (flushChunk st) = []
      /\ pgResponses st' = []
      /\ (pgRequests st' = []
          \/ exists buffer entries,
               ev = clientBufferChannel buffer None
               /\ recordRequest requestBuffer buffer = Ok entries
               /\ pgRequests st' = entries)).
Proof.
  intros Hreach Hstep.
  assert (Hkey : appended st' = appended st
                 \/ (flushCondition st = true
                     /\ appended st' = appended st ++ [chunkMock st]
                     /\ pgResponses st' = []
                     /\ (pgRequests st' = []
                         \/ exists buffer entries,
                              ev = clientBufferChannel buffer None
                              /\ recordRequest requestBuffer buffer = Ok entries
                              /\ pgRequests st' = entries))).
  { destruct ev as [| buffer w | buffer n1 n2 w | err]; simpl in Hstep.
    - unfold onSignal in Hstep. destruct (flushCondition st) eqn:E.
      + injection Hstep as <- <-. right. unfold flushChunk. rewrite E. simpl.
        repeat split; trivial. left; reflexivity.
      + injection Hstep as <- <-. left; reflexivity.
    - unfold onClientBuffer in Hstep. destruct w as [e|].
      + injection Hstep as <- <-. left; reflexivity.
      + destruct (recordRequest requestBuffer buffer) as [entries | |] eqn:Erec;
          simpl in Hstep; try discriminate Hstep.
        injection Hstep as <- <-. simpl. rewrite flushChunk_appended.
        destruct (flushCondition st) eqn:E; [right | left; reflexivity].
        destruct (flushChunk_resets st E) as [Hq Hr]. rewrite Hq, Hr.
        repeat split; trivial. right. exists buffer, entries. repeat split; trivial.
    - unfold onDestBuffer in Hstep. destruct w as [e|].
      + injection Hstep as <- <-. left; reflexivity.
      + destruct (recordResponse requestBuffer buffer); simpl in Hstep;
          try discriminate Hstep.
        injection Hstep as <- <-. left; reflexivity.
    - injection Hstep as <- <-. left; reflexivity. }
  split.
  - intros Hempty. destruct Hkey as [E | (Hcond & _)]; [exact E|].
    apply flushCondition_true in Hcond. destruct Hcond as (_ & Hq & Hr).
    destruct Hempty; contradiction.
  - intros Hgrew. destruct Hkey as [E | (Hcond & Happ & Hres & Hreqs)];
      [contradiction|].
    pose proof (proj1 (flushCondition_true st) Hcond) as (Hprev & Hq & Hr).
    destruct (flushChunk_resets st Hcond) as [Hfq Hfr].
    repeat split; trivial.
    pose proof (reachable_last_event requestBuffer prev st Hreach) as Hlast.
    destruct prev as [[| b w | b n1 n2 w | err] |].
    + rewrite Hcond in Hlast. discriminate Hlast.
    + rewrite Hprev in Hlast. discriminate Hlast.
    + exists b, n1, n2, w. reflexivity.
    + contradiction.
    + contradiction.
Qed.

Lemma last_cons_default {A : Type} (l : list A) (a d : A) :
  last (a :: l) d = last l a.
Proof.
  revert a d. induction l as [|b l IH]; intros a d; [reflexivity|].
  change (last (a :: b :: l) d) with (last (b :: l) d).
  rewrite (IH b d), (IH b a). reflexivity.
Qed.

(** Every state in which a run of the relay still waits for an event is
    reachable, with the last event of the run before it. *)
Lemma runRelay_reachable {P : Pgproto3} {C : Collaborators} (requestBuffer : slice) :
  forall (evs : list Event) (prev : option Event) (st st' : Relay),
    reachable requestBuffer prev st ->
    runRelay requestBuffer st evs = Ok (Running, st') ->
    reachable requestBuffer (last (map Some evs) prev) st'.
Proof.
  induction evs as [|ev evs IH]; intros prev st st' Hreach Hrun.
  - simpl in Hrun. injection Hrun as <-. exact Hreach.
  - cbn [runRelay] in Hrun.
    destruct (step requestBuffer st ev) as [[[|err] st1] | |] eqn:Hstep;
      cbn [bind] in Hrun; try discriminate Hrun.
    cbn [map]. rewrite last_cons_default.
    apply (IH (Some ev) st1 st'); [| exact Hrun].
    exact (reachable_step requestBuffer prev st ev st1 Hreach Hstep).
Qed.

Lemma encodePostgresOutgoing_reachable {P : Pgproto3} {C : Collaborators}
    (requestBuffer : slice) (now : Z) (evs : list Event) (st' : Relay) :
  encodePostgresOutgoing requestBuffer now None evs = Ok (Running, st') ->
  reachable requestBuffer (last (map Some evs) None) st'.
Proof.
  unfold encodePostgresOutgoing.
  destruct (start requestBuffer now None) as [[|err] st] eqn:Hstart.
  - apply runRelay_reachable. exact (reachable_start requestBuffer now st Hstart).
  - intro H. unfold start in Hstart.
    destruct (DecodeStartupMessage NewBackend (elems requestBuffer)).
    discriminate Hstart.
Qed.

Lemma exchange_reachable :
  reachable (bytes startup60) (Some (destBufferChannel answerBuffer 1 2 None))
    (afterEvents exchange).
Proof.
  apply (encodePostgresOutgoing_reachable (bytes startup60) 0 exchange).
  vm_compute. reflexivity.
Qed.

Lemma mock_appended_only_after_response_witness :
  let st2 := afterEvents exchange in
  let st3 := afterEvents (exchange ++ [clientBufferChannel queryBuffer None]) in
  (List.length (pgRequests st2), List.length (pgResponses st2)) = (2%nat, 1%nat)
  /\ appended st2 = []
  /\ appended st3 = [chunkMock st2]
  /\ pgRequests (flushChunk st2) = [] /\ pgResponses (flushChunk st2) = []
  /\ pgResponses st3 = []
  /\ List.length (pgRequests st3) = 1%nat.
Proof.
  intros st2 st3.
  assert (Hstep : step (bytes startup60) st2 (clientBufferChannel queryBuffer None)
                  = Ok (Running, st3)) by (vm_compute; reflexivity).
  destruct (mock_appended_only_after_response _ _ _ _ _ _ exchange_reachable Hstep)
    as [_ Hflush].
  assert (Hgrew : appended st3 <> appended st2) by (vm_compute; discriminate).
  destruct (Hflush Hgrew) as (_ & _ & _ & Happ & Hfq & Hfr & Hres & _).
  split; [reflexivity|]. split; [reflexivity|].
  split; [exact Happ|]. split; [exact Hfq|]. split; [exact Hfr|].
  split; [exact Hres|]. reflexivity.
Defined.

(** *** The entries of structurally decoded buffers *)

Lemma long_buffer_base64 (buffer : slice) :
  5 < len buffer ->
  String.eqb (EncodeToString (elems buffer)) "" = false
  /\ String.eqb (EncodeToString (elems buffer)) "Tg==" = false
  /\ (5 <? len buffer) = true /\ (len buffer <=? 5) = false.
Proof.
  intro H. unfold len in *. repeat split.
  - rewrite EncodeToString_eqb_empty. destruct (elems buffer); [simpl in H; lia | reflexivity].
  - apply EncodeToString_long_not_sentinel. lia.
  - apply Z.ltb_lt. exact H.
  - apply Z.leb_gt. exact H.
Qed.

Lemma recordRequest_decoded {P : Pgproto3} {C : Collaborators}
    (requestBuffer buffer : slice) :
  isStartupPacket (elems buffer) = false ->
  5 < len buffer ->
  recordRequest requestBuffer buffer
  = (pgMock <- decodeRequestBuffer requestBuffer buffer (EncodeToString (elems buffer)) ;;
     Ok [pgMock]).
Proof.
  intros Hs Hlen. destruct (long_buffer_base64 buffer Hlen) as (E1 & _ & E3 & _).
  unfold recordRequest. rewrite E1, Hs, E3. simpl.
  destruct (decodeRequestBuffer requestBuffer buffer (EncodeToString (elems buffer)));
    reflexivity.
Qed.

Lemma recordResponse_decoded {P : Pgproto3} {C : Collaborators}
    (requestBuffer buffer : slice) :
  isStartupPacket (elems buffer) = false ->
  5 < len buffer ->
  recordResponse requestBuffer buffer
  = (pgMock <- decodeResponseBuffer requestBuffer buffer (EncodeToString (elems buffer)) ;;
     Ok [pgMock]).
Proof.
  intros Hs Hlen. destruct (long_buffer_base64 buffer Hlen) as (E1 & E2 & E3 & E4).
  unfold recordResponse. rewrite E1, E2, Hs, E3, E4. simpl.
  destruct (decodeResponseBuffer requestBuffer buffer (EncodeToString (elems buffer)));
    reflexivity.
Qed.

(** A DataRow is collected only in an iteration that has appended a packet
    type. *)
Lemma frameResponses_rows_need_types {P : Pgproto3} {C : Collaborators} (buffer : slice) :
  forall (fuel : nat) (i : Z) (sc : responseScratch) (frames : list (Z * Z))
         (sc' : responseScratch) (frames' : list (Z * Z)),
    frameResponses fuel buffer i sc frames = Ok (sc', frames') ->
    (dataRows sc <> [] -> FrontendWrapper.PacketTypes (wrapper sc) <> []) ->
    dataRows sc' <> [] -> FrontendWrapper.PacketTypes (wrapper sc') <> [].
Proof.
  induction fuel as [|fuel IH]; intros i sc frames sc' frames' Hrun Hinv;
    cbn [frameResponses] in Hrun;
    destruct (i <? len buffer - 5); try discriminate Hrun;
    try (injection Hrun as <- <-; exact Hinv).
  destruct (index buffer i) as [msgType | |]; cbn [bind] in Hrun; try discriminate Hrun.
  destruct (slice_from buffer (i + 1)) as [rest | |]; cbn [bind] in Hrun;
    try discriminate Hrun.
  destruct (Uint32 rest) as [n | |]; cbn [bind] in Hrun; try discriminate Hrun.
  destruct (reslice buffer i (i + (n - 4) + 5)) as [f | |]; cbn [bind] in Hrun;
    try discriminate Hrun.
  destruct (TranslateToReadableResponse msgType
              (FrontendWrapper.Decoded (wrapper sc)) (elems f)) as [[d msg] [err|]].
  - injection Hrun as <- <-. exact Hinv.
  - destruct (storeBackendMessageResponse msgType msg d (ps sc) (dataRows sc))
      as [[[d' ps'] rows'] | |]; cbn [bind] in Hrun; try discriminate Hrun.
    apply (IH _ _ _ _ _ Hrun). intros _. cbn.
    intro E. apply app_eq_nil in E. destruct E as [_ E]. discriminate E.
Qed.

(** C10.  For a response buffer that goes through the framing loop: an entry
    it yields with a non-empty [DataRows] list has [Payload] set to the base64
    text of the buffer, whatever the length of the re-encoded bytes (equal to
    the buffer's or not); and the entry is yielded, with that payload,
    whenever at least one frame was decoded and [DataRows] is non-empty, in
    particular whenever the loop collected a DataRow. *)
Theorem data_rows_force_raw_payload {P : Pgproto3} {C : Collaborators}
    (requestBuffer buffer : slice) :
  isStartupPacket (elems buffer) = false ->
  5 < len buffer ->
  (forall e,
      recordResponse requestBuffer buffer = Ok [e] ->
      Frontend.DataRows e <> [] ->
      Frontend.Payload e = EncodeToString (elems buffer))
  /\ (forall sc frames,
         frameResponses (List.length (elems buffer)) buffer 0
           (mkScratch NewFrontend [] []) [] = Ok (sc, frames) ->
         let pgMock := serverResponseEntry requestBuffer (combineScratch sc) in
         (Frontend.PacketTypes pgMock <> [] /\ Frontend.DataRows pgMock <> [])
         \/ dataRows sc <> [] ->
         Frontend.DataRows pgMock <> []
         /\ recordResponse requestBuffer buffer
            = Ok [withPayloadFrontend pgMock (EncodeToString (elems buffer))]).
Proof.
  intros Hs Hlen.
  rewrite (recordResponse_decoded _ _ Hs Hlen). unfold decodeResponseBuffer.
  assert (Hguard : forall afterEncoded pgMock,
             Frontend.DataRows pgMock <> [] ->
             (forall e,
                 guardResponse afterEncoded buffer (EncodeToString (elems buffer)) pgMock
                 = Ok e ->
                 e = withPayloadFrontend pgMock (EncodeToString (elems buffer)))
             /\ (Frontend.PacketTypes pgMock <> [] ->
                 guardResponse afterEncoded buffer (EncodeToString (elems buffer)) pgMock
                 = Ok (withPayloadFrontend pgMock (EncodeToString (elems buffer))))).
  { intros afterEncoded pgMock Hrows. unfold guardResponse.
    assert (Hpos : (0 <? Z.of_nat (List.length (Frontend.DataRows pgMock))) = true).
    { apply Z.ltb_lt. destruct (Frontend.DataRows pgMock); [contradiction | simpl; lia]. }
    rewrite Hpos.
    destruct (negb (Z.of_nat (List.length afterEncoded) =? len buffer)).
    - destruct (Frontend.PacketTypes pgMock) as [|t ts]; cbn [firstPacketType bind].
      + split; [intros e He; discriminate He | intro H; contradiction].
      + rewrite orb_true_r. split; [intros e He; injection He as <- | intros _]; reflexivity.
    - cbn [bind orb]. split; [intros e He; injection He as <- | intros _]; reflexivity. }
  split.
  - intros e Hrec.
    destruct (frameResponses (List.length (elems buffer)) buffer 0
                (mkScratch NewFrontend [] []) []) as [[sc frames] | |];
      cbn [bind] in Hrec; try discriminate Hrec.
    destruct (PostgresDecoderFrontend (serverResponseEntry requestBuffer (combineScratch sc)))
      as [afterEncoded err].
    destruct (guardResponse afterEncoded buffer (EncodeToString (elems buffer))
                (serverResponseEntry requestBuffer (combineScratch sc))) as [e' | |] eqn:Eg;
      cbn [bind] in Hrec; try discriminate Hrec.
    injection Hrec as <-. intro Hrows.
    assert (Hsame : Frontend.DataRows e'
                    = Frontend.DataRows (serverResponseEntry requestBuffer (combineScratch sc))).
    { unfold guardResponse in Eg.
      destruct (negb (Z.of_nat (List.length afterEncoded) =? len buffer));
        [destruct (firstPacketType
                     (Frontend.PacketTypes
                        (serverResponseEntry requestBuffer (combineScratch sc))))
           as [t | |]; cbn [bind] in Eg; try discriminate Eg |];
        cbn [bind] in Eg; injection Eg as <-;
        match goal with |- context [if ?c then _ else _] => destruct c end; reflexivity. }
    rewrite Hsame in Hrows.
    destruct (Hguard afterEncoded _ Hrows) as [Hpartial _].
    rewrite (Hpartial e' Eg). reflexivity.
  - intros sc frames Hloop Hcase. rewrite Hloop. cbn [bind].
    set (pgMock := serverResponseEntry requestBuffer (combineScratch sc)) in *.
    assert (Hboth : Frontend.PacketTypes pgMock <> [] /\ Frontend.DataRows pgMock <> []).
    { destruct Hcase as [Hboth | Hcollected]; [exact Hboth|].
      split.
      - apply (frameResponses_rows_need_types buffer _ _ _ _ _ _ Hloop);
          [intro H; contradiction | exact Hcollected].
      - subst pgMock. cbn.
        destruct (dataRows sc) as [|row rows] eqn:E; [contradiction|].
        cbn. discriminate. }
    destruct Hboth as [Htypes Hrows]. split; [exact Hrows|].
    destruct (PostgresDecoderFrontend pgMock) as [afterEncoded err].
    destruct (Hguard afterEncoded pgMock Hrows) as [_ Htotal].
    rewrite (Htotal Htypes). reflexivity.
Qed.

Lemma data_rows_force_raw_payload_witness :
  let buffer := bytes (frame "D"%byte ["x"%byte] ++ frame "Z"%byte ["I"%byte]) in
  exists pgMock,
    recordResponse (bytes startup60) buffer = Ok [pgMock]
    /\ Frontend.DataRows pgMock = [{| RowValues := Some ["x"] |}]
    /\ List.length (fst (PostgresDecoderFrontend pgMock)) = List.length (elems buffer)
    /\ Frontend.Payload pgMock = "RAAAAAV4WgAAAAVJ".
Proof.
  intro buffer.
  destruct (data_rows_force_raw_payload (C := codec) (bytes startup60) buffer
              ltac:(vm_compute; reflexivity) ltac:(vm_compute; reflexivity))
    as [Hpartial Htotal].
  edestruct Htotal as [_ Hrec].
  - vm_compute. reflexivity.
  - right. cbn. discriminate.
  - eexists. split; [exact Hrec|].
    split; [reflexivity|]. split; [reflexivity|].
    apply Hpartial; [exact Hrec | cbn; discriminate].
Defined.

(** C1 (as amended).  For a buffer that goes through the framing loop and
    decodes at least one frame, with [t] the first packet type: the request
    entry carries the base64 text of the buffer exactly when the re-encoded
    length differs from the buffer's and [t] is not "p", and has an empty
    [Payload] otherwise; the response entry carries it exactly when the
    lengths differ and [t] is not "R", or its [DataRows] list is non-empty
    (so an entry starting with "R" skips the fallback only when it has no
    DataRows), and has an empty [Payload] otherwise. *)
Theorem round_trip_guard {P : Pgproto3} {C : Collaborators}
    (requestBuffer buffer : slice) :
  isStartupPacket (elems buffer) = false ->
  5 < len buffer ->
  let bufStr := EncodeToString (elems buffer) in
  (forall pg frames t ts,
      frameRequests (List.length (elems buffer)) buffer 0 NewBackend [] = Ok (pg, frames) ->
      BackendWrapper.PacketTypes pg = t :: ts ->
      let pgMock := clientRequestEntry requestBuffer pg in
      let mismatch :=
        negb (Z.of_nat (List.length (fst (PostgresDecoderBackend pgMock))) =? len buffer) in
      exists e,
        recordRequest requestBuffer buffer = Ok [e]
        /\ e = (if mismatch && negb (String.eqb t "p")
                then withPayloadBackend pgMock bufStr else pgMock)
        /\ (mismatch = true -> t <> "p" -> Backend.Payload e = bufStr)
        /\ (t = "p" -> Backend.Payload e = "")
        /\ (mismatch = false -> Backend.Payload e = ""))
  /\ (forall sc frames t ts,
         frameResponses (List.length (elems buffer)) buffer 0
           (mkScratch NewFrontend [] []) [] = Ok (sc, frames) ->
         FrontendWrapper.PacketTypes (wrapper sc) = t :: ts ->
         let pgMock := serverResponseEntry requestBuffer (combineScratch sc) in
         let mismatch :=
           negb (Z.of_nat (List.length (fst (PostgresDecoderFrontend pgMock))) =? len buffer) in
         exists e,
           recordResponse requestBuffer buffer = Ok [e]
           /\ e = (if (mismatch && negb (String.eqb t "R"))
                      || (0 <? Z.of_nat (List.length (Frontend.DataRows pgMock)))
                   then withPayloadFrontend pgMock bufStr else pgMock)
           /\ (mismatch = true -> t <> "R" -> Frontend.Payload e = bufStr)
           /\ (Frontend.DataRows pgMock <> [] -> Frontend.Payload e = bufStr)
           /\ (t = "R" -> Frontend.DataRows pgMock = [] -> Frontend.Payload e = "")
           /\ (mismatch = false -> Frontend.DataRows pgMock = [] ->
               Frontend.Payload e = "")).
Proof.
  intros Hs Hlen bufStr. split.
  - intros pg frames t ts Hloop Htypes pgMock mismatch.
    rewrite (recordRequest_decoded _ _ Hs Hlen).
    unfold decodeRequestBuffer. rewrite Hloop. cbn [bind].
    fold pgMock. subst mismatch.
    destruct (PostgresDecoderBackend pgMock) as [afterEncoded err]. simpl fst.
    unfold guardRequest.
    assert (Ht : Backend.PacketTypes pgMock = t :: ts) by exact Htypes.
    assert (Hp : Backend.Payload pgMock = "") by reflexivity.
    clearbody pgMock.
    rewrite Ht. simpl firstPacketType. fold bufStr.
    exists (if negb (Z.of_nat (List.length afterEncoded) =? len buffer)
               && negb (String.eqb t "p")
            then withPayloadBackend pgMock bufStr else pgMock).
    destruct (negb (Z.of_nat (List.length afterEncoded) =? len buffer)); simpl.
    + split; [reflexivity|]. split; [reflexivity|]. repeat split.
      * intros _ Hne. apply String.eqb_neq in Hne. rewrite Hne. reflexivity.
      * intros ->. exact Hp.
      * discriminate.
    + split; [reflexivity|]. split; [reflexivity|]. repeat split.
      * discriminate.
      * intros _. exact Hp.
      * intros _. exact Hp.
  - intros sc frames t ts Hloop Htypes pgMock mismatch.
    rewrite (recordResponse_decoded _ _ Hs Hlen).
    unfold decodeResponseBuffer. rewrite Hloop. cbn [bind].
    fold pgMock. subst mismatch.
    destruct (PostgresDecoderFrontend pgMock) as [afterEncoded err]. simpl fst.
    unfold guardResponse.
    assert (Ht : Frontend.PacketTypes pgMock = t :: ts) by exact Htypes.
    assert (Hp : Frontend.Payload pgMock = "") by reflexivity.
    clearbody pgMock.
    rewrite Ht. simpl firstPacketType. fold bufStr.
    assert (Hrows : (0 <? Z.of_nat (List.length (Frontend.DataRows pgMock)))
                    = match Frontend.DataRows pgMock with [] => false | _ => true end).
    { destruct (Frontend.DataRows pgMock); [reflexivity | apply Z.ltb_lt; simpl; lia]. }
    rewrite Hrows.
    exists (if (negb (Z.of_nat (List.length afterEncoded) =? len buffer)
                && negb (String.eqb t "R"))
               || match Frontend.DataRows pgMock with [] => false | _ => true end
            then withPayloadFrontend pgMock bufStr else pgMock).
    destruct (negb (Z.of_nat (List.length afterEncoded) =? len buffer)); simpl.
    + split; [reflexivity|]. split; [reflexivity|]. repeat split.
      * intros _ Hne. apply String.eqb_neq in Hne. rewrite Hne. reflexivity.
      * intro Hne. destruct (Frontend.DataRows pgMock); [contradiction|].
        rewrite orb_true_r. reflexivity.
      * intros -> ->. exact Hp.
      * discriminate.
    + split; [reflexivity|]. split; [reflexivity|]. repeat split.
      * discriminate.
      * intro Hne. destruct (Frontend.DataRows pgMock); [contradiction | reflexivity].
      * intros _ ->. exact Hp.
      * intros _ ->. exact Hp.
Qed.

Lemma round_trip_guard_witness :
  (exists e,
      recordRequest (bytes startup60)
        (bytes (frame "p"%byte (list_byte_of_string "secret"))) = Ok [e]
      /\ Backend.Payload e = "")
  /\ (exists e,
         recordRequest (bytes startup60) queryBuffer = Ok [e]
         /\ Backend.Payload e = "UQAAAAxzZWxlY3QgMQ==")
  /\ (exists e,
         recordResponse (bytes startup60) (bytes (frame "R"%byte [x00; x00; x00; x00]))
         = Ok [e]
         /\ Frontend.Payload e = "").
Proof.
  split; [| split].
  - destruct (round_trip_guard (C := codec) (bytes startup60)
                (bytes (frame "p"%byte (list_byte_of_string "secret")))
                ltac:(vm_compute; reflexivity) ltac:(vm_compute; reflexivity)) as [Hreq _].
    edestruct Hreq as (e & Hrec & _ & _ & Hexempt & _).
    + vm_compute. reflexivity.
    + reflexivity.
    + exists e. split; [exact Hrec | exact (Hexempt eq_refl)].
  - destruct (round_trip_guard (C := codec) (bytes startup60) queryBuffer ltac:(vm_compute; reflexivity) ltac:(vm_compute; reflexivity))
      as [Hreq _].
    edestruct Hreq as (e & Hrec & _ & Hfallback & _).
    + vm_compute. reflexivity.
    + reflexivity.
    + exists e. split; [exact Hrec|].
      apply Hfallback; [vm_compute; reflexivity | discriminate].
  - destruct (round_trip_guard (C := codec) (bytes startup60)
                (bytes (frame "R"%byte [x00; x00; x00; x00])) ltac:(vm_compute; reflexivity) ltac:(vm_compute; reflexivity))
      as [_ Hresp].
    edestruct Hresp as (e & Hrec & _ & _ & _ & Hexempt & _).
    + vm_compute. reflexivity.
    + reflexivity.
    + exists e. split; [exact Hrec|]. apply Hexempt; reflexivity.
Defined.

(** C1 as stated fails on the response side: an entry whose first packet type
    is "R" and whose re-encoded length differs from the buffer's still gets
    the raw payload when it carries DataRows.  Here the buffer holds an
    authentication frame followed by a DataRow frame. *)
Lemma exempt_response_with_data_rows_gets_payload :
  let buffer := bytes (frame "R"%byte [x00; x00; x00; x00] ++ frame "D"%byte ["x"%byte]) in
  exists e,
    recordResponse (bytes startup60) buffer = Ok [e]
    /\ Frontend.PacketTypes e = ["R"; "D"]
    /\ List.length (fst (PostgresDecoderFrontend (withPayloadFrontend e "")))
       <> List.length (elems buffer)
    /\ Frontend.DataRows e = [{| RowValues := Some ["x"] |}]
    /\ Frontend.Payload e = EncodeToString (elems buffer)
    /\ Frontend.Payload e <> "".
Proof.
  intro buffer. eexists. split; [vm_compute; reflexivity|].
  split; [reflexivity|]. split; [vm_compute; discriminate|].
  split; [reflexivity|]. split; [reflexivity|]. vm_compute. discriminate.
Qed.

(** *** Framing *)

Lemma index_ok (s : slice) (i : Z) :
  0 <= i < len s -> exists b, index s i = Ok b.
Proof.
  intros [H0 H1]. unfold index.
  destruct (Z.leb_spec 0 i); [|lia]. destruct (Z.ltb_spec i (len s)); [|lia]. simpl.
  destruct (nth_error (elems s) (Z.to_nat i)) as [b|] eqn:E; [eauto|].
  apply nth_error_None in E. unfold len in H1. lia.
Qed.

Lemma slice_from_ok (s : slice) (lo : Z) :
  0 <= lo <= len s ->
  slice_from s lo = Ok (mkSlice (skipn (Z.to_nat lo) (elems s)) (spare s)).
Proof.
  intros [H0 H1]. unfold slice_from.
  destruct (Z.leb_spec 0 lo); [|lia]. destruct (Z.leb_spec lo (len s)); [|lia].
  reflexivity.
Qed.

Lemma byteZ_nonneg (b : byte) : 0 <= byteZ b.
Proof. unfold byteZ. lia. Qed.

Lemma Uint32_ok (b : slice) :
  (4 <= List.length (elems b))%nat -> exists n, Uint32 b = Ok n /\ 0 <= n.
Proof.
  intro H. unfold Uint32.
  destruct (elems b) as [|b0 [|b1 [|b2 [|b3 rest]]]]; simpl in H; try lia.
  eexists. split; [reflexivity|].
  repeat (apply Z.lor_nonneg; split);
    try apply Z.shiftl_nonneg; apply byteZ_nonneg.
Qed.

Lemma reslice_ok (s : slice) (lo hi : Z) :
  0 <= lo <= hi -> hi <= cap s -> exists f, reslice s lo hi = Ok f.
Proof.
  intros [H0 H1] H2. unfold reslice.
  destruct (Z.leb_spec 0 lo); [|lia]. destruct (Z.leb_spec lo hi); [|lia].
  destruct (Z.leb_spec hi (cap s)); [|lia]. simpl. eauto.
Qed.

(** The header of the frame at [i] can always be read inside the loop. *)
Lemma header_ok (buffer : slice) (i : Z) :
  0 <= i -> i < len buffer - 5 ->
  exists msgType rest n,
    index buffer i = Ok msgType
    /\ slice_from buffer (i + 1) = Ok rest
    /\ Uint32 rest = Ok n /\ 0 <= n.
Proof.
  intros H0 H1.
  destruct (index_ok buffer i) as [msgType Hm]; [lia|].
  pose proof (slice_from_ok buffer (i + 1)) as Hr.
  destruct (Uint32_ok (mkSlice (skipn (Z.to_nat (i + 1)) (elems buffer)) (spare buffer)))
    as (n & Hn & Hpos).
  { simpl. rewrite length_skipn. unfold len in H1. lia. }
  eexists msgType, _, n. split; [exact Hm|]. split; [apply Hr; lia|].
  split; [exact Hn | exact Hpos].
Qed.

Lemma storeBackendMessage_panic {P : Pgproto3}
    (msgType : byte) (msg : FrontendMessage) (d : BackendWrapper.decoded) :
  match storeBackendMessage msgType msg d with
  | Ok _ => True
  | Panic p => p = InterfaceConversion
  | OutOfFuel => False
  end.
Proof.
  unfold storeBackendMessage.
  destruct (Byte.eqb msgType "p"%byte), (Byte.eqb msgType "P"%byte),
    (Byte.eqb msgType "B"%byte), (Byte.eqb msgType "E"%byte);
    destruct msg; simpl; trivial.
Qed.

(** With a budget of at least the bytes left, the request-side loop never
    runs out of budget, never indexes or slices out of range, and hands only
    frames inside the buffer to the translation. *)
Lemma frameRequests_safe {P : Pgproto3} {C : Collaborators} (buffer : slice) :
  forall (fuel : nat) (i : Z) (pg : BackendWrapper.t) (frames : list (Z * Z)),
    0 <= i ->
    len buffer - 5 - i <= Z.of_nat fuel ->
    Forall (withinBuffer buffer) frames ->
    match frameRequests fuel buffer i pg frames with
    | Ok (_, frames') => Forall (withinBuffer buffer) frames'
    | Panic p => p = InterfaceConversion
    | OutOfFuel => False
    end.
Proof.
  induction fuel as [|fuel IH]; intros i pg frames Hi Hfuel Hframes.
  - cbn [frameRequests]. destruct (Z.ltb_spec i (len buffer - 5)); [lia | exact Hframes].
  - cbn [frameRequests].
    destruct (Z.ltb_spec i (len buffer - 5)) as [Hin | Hout]; [| exact Hframes].
    destruct (header_ok buffer i Hi Hin) as (msgType & rest & n & Hm & Hr & Hn & Hpos).
    rewrite Hm, Hr. cbn [bind]. rewrite Hn. cbn [bind].
    destruct (Z.ltb_spec (len buffer) (i + (n - 4) + 5)) as [Hlong | Hfits];
      [exact Hframes|].
    destruct (reslice_ok buffer i (i + (n - 4) + 5)) as [f Hf];
      [lia | pose proof (len_le_cap buffer); lia |].
    rewrite Hf. cbn [bind].
    destruct (TranslateToReadableBackend msgType (BackendWrapper.Decoded pg) (elems f))
      as [[d msg] err].
    pose proof (storeBackendMessage_panic msgType msg d) as Hstore.
    destruct (storeBackendMessage msgType msg d) as [d' | p |]; cbn [bind];
      [| exact Hstore | contradiction].
    apply IH; [lia | lia |].
    apply Forall_app. split; [exact Hframes|].
    constructor; [| constructor]. unfold withinBuffer. simpl. lia.
Qed.

Lemma storeBackendMessageResponse_budget {P : Pgproto3}
    (msgType : byte) (msg : BackendMessage) (d : FrontendWrapper.decoded)
    (ps : list ParameterStatus) (rows : list DataRow) :
  storeBackendMessageResponse msgType msg d ps rows <> OutOfFuel.
Proof.
  unfold storeBackendMessageResponse.
  destruct (Byte.eqb msgType "C"%byte); destruct msg; cbn [assertCommandComplete bind];
    discriminate.
Qed.

(** With a budget of at least the bytes left, the response-side loop never
    runs out of budget either. *)
Lemma frameResponses_budget {P : Pgproto3} {C : Collaborators} (buffer : slice) :
  forall (fuel : nat) (i : Z) (sc : responseScratch) (frames : list (Z * Z)),
    0 <= i ->
    len buffer - 5 - i <= Z.of_nat fuel ->
    frameResponses fuel buffer i sc frames <> OutOfFuel.
Proof.
  induction fuel as [|fuel IH]; intros i sc frames Hi Hfuel.
  - cbn [frameResponses]. destruct (Z.ltb_spec i (len buffer - 5)); [lia | discriminate].
  - cbn [frameResponses].
    destruct (Z.ltb_spec i (len buffer - 5)) as [Hin | Hout]; [| discriminate].
    destruct (header_ok buffer i Hi Hin) as (msgType & rest & n & Hm & Hr & Hn & Hpos).
    rewrite Hm, Hr. cbn [bind]. rewrite Hn. cbn [bind].
    destruct (reslice buffer i (i + (n - 4) + 5)) as [f | |] eqn:Hf; cbn [bind];
      [| discriminate |].
    + destruct (TranslateToReadableResponse msgType
                  (FrontendWrapper.Decoded (wrapper sc)) (elems f)) as [[d msg] [err|]];
        [discriminate|].
      pose proof (storeBackendMessageResponse_budget msgType msg d (ps sc) (dataRows sc))
        as Hstore.
      destruct (storeBackendMessageResponse msgType msg d (ps sc) (dataRows sc))
        as [[[d' ps'] rows'] | |]; cbn [bind]; [| discriminate | contradiction].
      apply IH; lia.
    + unfold reslice in Hf.
      destruct ((0 <=? i) && (i <=? i + (n - 4) + 5) && (i + (n - 4) + 5 <=? cap buffer));
        discriminate Hf.
Qed.

(** X1.  The request-side loop, run as the relay runs it, stays inside the
    buffer:
    it ends without an index or slice panic, and every frame it hands to the
    translation lies within the visible bytes. *)
Theorem request_framing_stays_within_buffer {P : Pgproto3} {C : Collaborators}
    (buffer : slice) (pg : BackendWrapper.t) :
  match frameRequests (List.length (elems buffer)) buffer 0 pg [] with
  | Ok (_, frames) => Forall (withinBuffer buffer) frames
  | Panic p => p = InterfaceConversion
  | OutOfFuel => False
  end.
Proof.
  apply frameRequests_safe; [lia | unfold len; lia | constructor].
Qed.

(** X2.  The request-side loop stops at a frame whose declared body runs past
    the end of the buffer, before slicing or translating it. *)
Theorem request_framing_halts_at_overlong_frame {P : Pgproto3} {C : Collaborators}
    (buffer : slice) (fuel : nat) (i : Z) (pg : BackendWrapper.t)
    (frames : list (Z * Z)) (msgType : byte) (rest : slice) (n : Z) :
  i < len buffer - 5 ->
  index buffer i = Ok msgType ->
  slice_from buffer (i + 1) = Ok rest ->
  Uint32 rest = Ok n ->
  len buffer < i + (n - 4) + 5 ->
  frameRequests (S fuel) buffer i pg frames
  = Ok (BackendWrapper.mk P msgType (n - 4) (BackendWrapper.PacketTypes pg)
          (BackendWrapper.Decoded pg), frames).
Proof.
  intros Hin Hm Hr Hn Hlong. cbn [frameRequests].
  destruct (Z.ltb_spec i (len buffer - 5)); [|lia].
  rewrite Hm, Hr. cbn [bind]. rewrite Hn. cbn [bind].
  destruct (Z.ltb_spec (len buffer) (i + (n - 4) + 5)); [reflexivity | lia].
Qed.

Lemma request_framing_halts_at_overlong_frame_witness :
  frameRequests (C := codec) 6 (bytes truncated) 0 NewBackend []
  = Ok (BackendWrapper.mk structs "Z"%byte 96 []
          (BackendWrapper.Decoded NewBackend), []).
Proof.
  rewrite (request_framing_halts_at_overlong_frame (C := codec) (bytes truncated) 5 0
             NewBackend [] "Z"%byte (bytes [x00; x00; x00; x64; x00]) 100).
  - reflexivity.
  - vm_compute. reflexivity.
  - reflexivity.
  - reflexivity.
  - reflexivity.
  - vm_compute. reflexivity.
Defined.

(** X4.  Both loops stop as soon as five bytes or fewer are left: a final
    frame without a body (exactly five bytes) is not handed to the translation
    and adds no packet type. *)
Theorem framing_stops_with_five_bytes_left {P : Pgproto3} {C : Collaborators}
    (buffer : slice) (fuel : nat) (i : Z) (pg : BackendWrapper.t)
    (sc : responseScratch) (frames : list (Z * Z)) :
  len buffer - 5 <= i ->
  frameRequests fuel buffer i pg frames = Ok (pg, frames)
  /\ frameResponses fuel buffer i sc frames = Ok (sc, frames).
Proof.
  intro H. assert (E : (i <? len buffer - 5) = false) by (apply Z.ltb_ge; exact H).
  destruct fuel; cbn [frameRequests frameResponses]; rewrite E; split; reflexivity.
Qed.

Lemma framing_stops_with_five_bytes_left_witness :
  len executeSync = 15
  /\ (exists pg,
         frameRequests (C := codec) 15 executeSync 0 NewBackend [] = Ok (pg, [(0, 10)])
         /\ BackendWrapper.PacketTypes pg = ["E"]
         /\ frameRequests (C := codec) 14 executeSync 10 pg [(0, 10)] = Ok (pg, [(0, 10)])).
Proof.
  split; [reflexivity|]. eexists. split; [vm_compute; reflexivity|].
  split; [reflexivity|].
  apply (framing_stops_with_five_bytes_left (C := codec) executeSync 14 10 _
           (mkScratch NewFrontend [] []) [(0, 10)]).
  vm_compute. discriminate.
Defined.

(** C2 on the buffer [truncated], whose header declares a body of 96 bytes
    where one byte is left.  The request-side loop stops there without a
    frame.  The response-side loop has no length check: it slices
    [buffer[0:101]], which panics when the capacity is below 101, and
    otherwise hands the translation a frame of 101 bytes, 95 of them past the
    end of the buffer. *)
Theorem response_framing_slices_past_buffer_end {P : Pgproto3} {C : Collaborators}
    (pg : BackendWrapper.t) (sc : responseScratch) (fuel : nat) :
  frameRequests (S fuel) (bytes truncated) 0 pg []
  = Ok (BackendWrapper.mk P "Z"%byte 96 (BackendWrapper.PacketTypes pg)
          (BackendWrapper.Decoded pg), [])
  /\ frameResponses (S fuel) (bytes truncated) 0 sc [] = Panic SliceBoundsOutOfRange
  /\ exists sc',
       frameResponses (S fuel) (mkSlice truncated (repeat x00 95)) 0 sc []
       = Ok (sc', [(0, 101)])
       /\ len (mkSlice truncated (repeat x00 95)) = 6.
Proof.
  split; [reflexivity|]. split; [reflexivity|].
  cbn [frameResponses].
  change (0 <? len (mkSlice truncated (repeat x00 95)) - 5) with true. cbv iota.
  change (index (mkSlice truncated (repeat x00 95)) 0) with (Ok "Z"%byte).
  cbn [bind].
  change (slice_from (mkSlice truncated (repeat x00 95)) (0 + 1))
    with (Ok (mkSlice [x00; x00; x00; x64; x00] (repeat x00 95))).
  cbn [bind].
  change (Uint32 (mkSlice [x00; x00; x00; x64; x00] (repeat x00 95))) with (Ok 100).
  cbn [bind].
  change (reslice (mkSlice truncated (repeat x00 95)) 0 (0 + (100 - 4) + 5))
    with (Ok (mkSlice (truncated ++ repeat x00 95) [])).
  cbn [bind].
  destruct (TranslateToReadableResponse "Z"%byte
              (FrontendWrapper.Decoded (wrapper sc))
              (elems (mkSlice (truncated ++ repeat x00 95) []))) as [[d msg] [err|]].
  - eexists. split; reflexivity.
  - unfold storeBackendMessageResponse.
    change (Byte.eqb "Z" "C") with false. change (Byte.eqb "Z" "D") with false.
    cbn [bind].
    destruct fuel; cbn [frameResponses];
      change (0 + (5 + (100 - 4)) <? len (mkSlice truncated (repeat x00 95)) - 5)
        with false; cbv iota; eexists; split; reflexivity.
Qed.

(** ** package postgresparser: TEST mode *)

(** The write loop over the matched entries, all encodings and writes
    succeeding. *)
Lemma write_loop {P : Pgproto3} {C : Collaborators} (rs : list Frontend.t) :
  (forall r, In r rs -> snd (encodeResponse r) = None) ->
  forall (w : Wire) (cs : list Call),
    answers (mkSession (replyNext rs) w cs) (map (fun _ => ansClientWrite None) rs)
    = Some (mkSession (atSetReadDeadline [])
              (mkWire (toDest w) (toClient w ++ map (fun r => fst (encodeResponse r)) rs))
              (cs ++ map (fun r => callClientWrite (fst (encodeResponse r))) rs)).
Proof.
  induction rs as [|r rs IH]; intros Hok w cs.
  - simpl. rewrite !app_nil_r. destruct w. reflexivity.
  - assert (Hr : snd (encodeResponse r) = None) by (apply Hok; left; reflexivity).
    cbn [map answers]. unfold answer. cbn [replayer replyNext].
    destruct (encodeResponse r) as [encoded err] eqn:E. simpl in Hr. subst err.
    cbn [pendingCall resume wire calls wireAfter fst].
    rewrite IH by (intros r' Hin; apply Hok; right; exact Hin).
    cbn [toDest toClient]. rewrite <- !app_assoc. reflexivity.
Qed.

(** C8.  The bytes of a response entry are those of
    [PostgresDecoderFrontend] when its [PacketTypes] list is non-empty and its
    [Payload] is empty, and those of [PostgresDecoder] on its [Payload]
    otherwise.  On a match whose entries all encode, and with every write
    succeeding, the client receives exactly these byte strings, one write per
    entry in list order, after which the request list is emptied and the loop
    starts over. *)
Theorem matched_entries_replayed_in_order {P : Pgproto3} {C : Collaborators}
    (pgRequests : list (list byte)) (pgResponses : list Frontend.t)
    (w : Wire) (cs : list Call) :
  (forall r, In r pgResponses -> snd (encodeResponse r) = None) ->
  (forall r,
      encodeResponse r
      = match Frontend.PacketTypes r, Frontend.Payload r with
        | _ :: _, EmptyString => PostgresDecoderFrontend r
        | _, _ => PostgresDecoder (Frontend.Payload r)
        end)
  /\ answers (mkSession (atMatchingReadablePG pgRequests) w cs)
       (ansMatchingReadablePG true pgResponses None
        :: map (fun _ => ansClientWrite None) pgResponses)
     = Some (mkSession (atSetReadDeadline [])
               (mkWire (toDest w)
                  (toClient w ++ map (fun r => fst (encodeResponse r)) pgResponses))
               (cs ++ callMatchingReadablePG pgRequests
                   :: map (fun r => callClientWrite (fst (encodeResponse r))) pgResponses)).
Proof.
  intro Hok. split.
  - intro r. unfold encodeResponse.
    destruct (PostgresDecoder (Frontend.Payload r)) as [encoded err].
    destruct (Frontend.PacketTypes r) as [|t ts], (Frontend.Payload r) as [|c payload];
      reflexivity.
  - cbn [answers]. unfold answer.
    cbn [replayer pendingCall resume negb wire calls wireAfter].
    rewrite (write_loop pgResponses Hok). rewrite <- app_assoc. reflexivity.
Qed.

(** C7 after a burst that found no match.  The first burst [a], unmatched, is
    handed to [Passthrough] as captured: the destination receives [a], the
    client the reply, and the replayer is back at the top of its loop, its
    request list still holding [a].  A second unmatched burst, the chunk
    [b], is handed to [Passthrough] as [a; b]: the destination receives [a]
    a second time before [b].  With nothing read before the next idle timeout
    the matcher is asked again, and on no match [a] alone is passed through
    again.  After a burst that did match, in contrast, the next unmatched
    burst is passed through alone. *)
Theorem stale_burst_passed_through_again {P : Pgproto3} {C : Collaborators}
    (a b reply reply' : list byte) (pgResponses pgResponses' : list Frontend.t) :
  let idle := [ansSetReadDeadline None; ansReadBytes [] (Some net_timeout) false] in
  let burst := [ansSetReadDeadline None; ansReadBytes b None false;
                ansReadBytes [] (Some net_timeout) false] in
  let noMatch := [ansMatchingReadablePG false pgResponses None; ansPassthrough reply None] in
  let noMatch' :=
    [ansMatchingReadablePG false pgResponses' None; ansPassthrough reply' None] in
  answers (decodePostgresOutgoing a) (idle ++ noMatch)
  = Some (mkSession (atSetReadDeadline [a]) (mkWire [a] [reply])
            [callSetReadDeadline 10; callReadBytes;
             callMatchingReadablePG [a]; callPassthrough [a]])
  /\ answers (decodePostgresOutgoing a) (idle ++ noMatch ++ burst ++ noMatch')
     = Some (mkSession (atSetReadDeadline [a; b]) (mkWire [a; a; b] [reply; reply'])
               [callSetReadDeadline 10; callReadBytes;
                callMatchingReadablePG [a]; callPassthrough [a];
                callSetReadDeadline 10; callReadBytes; callReadBytes;
                callMatchingReadablePG [a; b]; callPassthrough [a; b]])
  /\ answers (decodePostgresOutgoing a) (idle ++ noMatch ++ idle ++ noMatch')
     = Some (mkSession (atSetReadDeadline [a]) (mkWire [a; a] [reply; reply'])
               [callSetReadDeadline 10; callReadBytes;
                callMatchingReadablePG [a]; callPassthrough [a];
                callSetReadDeadline 10; callReadBytes;
                callMatchingReadablePG [a]; callPassthrough [a]])
  /\ answers (decodePostgresOutgoing a)
       (idle ++ [ansMatchingReadablePG true [] None] ++ burst ++ noMatch')
     = Some (mkSession (atSetReadDeadline [b]) (mkWire [b] [reply'])
               [callSetReadDeadline 10; callReadBytes; callMatchingReadablePG [a];
                callSetReadDeadline 10; callReadBytes; callReadBytes;
                callMatchingReadablePG [b]; callPassthrough [b]]).
Proof.
  intros idle burst noMatch noMatch'.
  split; [reflexivity|]. split; [reflexivity|]. split; reflexivity.
Qed.

(** X3.  A burst: with [acc] already captured, the chunks read without error are
    appended in order, and the read that times out ends the burst without an
    error; when anything was captured the replayer is then at its call of the
    matcher, with exactly the captured chunks in order. *)
Theorem idle_timeout_ends_burst {P : Pgproto3} {C : Collaborators}
    (acc chunks : list (list byte)) (junk : list byte) (terminateInitiated : bool)
    (w : Wire) (cs : list Call) :
  acc ++ chunks <> [] ->
  pendingCall (atSetReadDeadline acc) = Some (callSetReadDeadline 10)
  /\ answers (mkSession (atSetReadDeadline acc) w cs)
       (ansSetReadDeadline None
        :: map (fun b => ansReadBytes b None terminateInitiated) chunks
        ++ [ansReadBytes junk (Some net_timeout) terminateInitiated])
     = Some (mkSession (atMatchingReadablePG (acc ++ chunks)) w
               (cs ++ callSetReadDeadline 10
                   :: repeat callReadBytes (S (List.length chunks)))).
Proof.
  intro Hne. split; [reflexivity|].
  cbn [answers]. unfold answer at 1. cbn [replayer pendingCall resume wire calls wireAfter].
  assert (Hgen : forall chunks acc cs',
             acc ++ chunks <> [] ->
             answers (mkSession (atReadBytes acc) w cs')
               (map (fun b => ansReadBytes b None terminateInitiated) chunks
                ++ [ansReadBytes junk (Some net_timeout) terminateInitiated])
             = Some (mkSession (atMatchingReadablePG (acc ++ chunks)) w
                       (cs' ++ repeat callReadBytes (S (List.length chunks))))).
  { clear. induction chunks as [|b chunks IH]; intros acc cs' Hne.
    - rewrite app_nil_r in *. cbn [map app answers]. unfold answer.
      cbn [replayer pendingCall resume wire calls wireAfter isTimeout negb].
      rewrite andb_false_r.
      destruct acc as [|a acc]; [contradiction|].
      destruct w. reflexivity.
    - cbn [map app answers]. unfold answer at 1.
      cbn [replayer pendingCall resume wire calls wireAfter].
      replace (match w with {| toDest := toDest; toClient := toClient |} => w end)
        with w by (destruct w; reflexivity).
      rewrite IH.
      + rewrite <- !app_assoc. reflexivity.
      + rewrite <- app_assoc. exact Hne. }
  rewrite Hgen by exact Hne. rewrite <- app_assoc. reflexivity.
Qed.

Lemma matched_entries_replayed_in_order_witness :
  answers (mkSession (atMatchingReadablePG [burst40]) (mkWire [] []) [])
    [ansMatchingReadablePG true [structuralEntry; rawEntry] None;
     ansClientWrite None; ansClientWrite None]
  = Some (mkSession (atSetReadDeadline [])
            (mkWire []
               [fst (PostgresDecoderFrontend structuralEntry);
                fst (PostgresDecoder "raw bytes")])
            [callMatchingReadablePG [burst40];
             callClientWrite (fst (PostgresDecoderFrontend structuralEntry));
             callClientWrite (fst (PostgresDecoder "raw bytes"))]).
Proof.
  destruct (matched_entries_replayed_in_order (C := codec) [burst40]
              [structuralEntry; rawEntry] (mkWire [] []) []) as [_ H].
  - intros r [<- | [<- | []]]; reflexivity.
  - exact H.
Defined.

Lemma idle_timeout_ends_burst_witness :
  List.length burst40 = 40%nat
  /\ answers (decodePostgresOutgoing burst40)
       [ansSetReadDeadline None; ansReadBytes [] (Some net_timeout) false]
     = Some (mkSession (atMatchingReadablePG [burst40]) (mkWire [] [])
               [callSetReadDeadline 10; callReadBytes]).
Proof.
  split; [reflexivity|].
  destruct (idle_timeout_ends_burst (C := codec) [burst40] [] [] false (mkWire [] []) [])
    as [_ H].
  - discriminate.
  - exact H.
Defined.

(** C6 after a burst that found no match.  The first burst [a] reaches the
    matcher alone.  After the passthrough the request list still holds [a]:
    an idle timeout with nothing read puts the replayer at the matcher again
    with [a], and a later chunk [b] reaches the matcher as [a; b]. *)
Theorem unmatched_burst_is_matched_again {P : Pgproto3} {C : Collaborators}
    (a b reply : list byte) (pgResponses : list Frontend.t) :
  let idle := [ansSetReadDeadline None; ansReadBytes [] (Some net_timeout) false] in
  let noMatch := [ansMatchingReadablePG false pgResponses None; ansPassthrough reply None] in
  option_map replayer (answers (decodePostgresOutgoing a) idle)
  = Some (atMatchingReadablePG [a])
  /\ option_map (fun s => (replayer s, matcherCalls (calls s), toDest (wire s)))
       (answers (decodePostgresOutgoing a) (idle ++ noMatch ++ idle))
     = Some (atMatchingReadablePG [a], [[a]], [a])
  /\ option_map (fun s => (replayer s, matcherCalls (calls s)))
       (answers (decodePostgresOutgoing a)
          (idle ++ noMatch
           ++ [ansSetReadDeadline None; ansReadBytes b None false;
               ansReadBytes [] (Some net_timeout) false]))
     = Some (atMatchingReadablePG [a; b], [[a]]).
Proof.
  intros idle noMatch. split; [reflexivity|]. split; reflexivity.
Qed.

(** * Further properties *)

(** ** package mysqlparser *)

(** X5.  [decodeComInitDb] loses nothing: an input it accepts is its [Status]
    byte followed by the bytes of its [DbName], which is never empty; and a
    status byte followed by the bytes of a name decodes to that pair, except
    that an empty name (a one-byte frame) is rejected. *)
Theorem decodeComInitDb_round_trip (data : list byte) (p : mysqlparser.ComInitDbPacket)
    (status : byte) (name : string) :
  (mysqlparser.decodeComInitDb data = inl p ->
   data = mysqlparser.Status p :: list_byte_of_string (mysqlparser.DbName p)
   /\ mysqlparser.DbName p <> "")
  /\ mysqlparser.decodeComInitDb (status :: list_byte_of_string name)
     = match name with
       | EmptyString => inr (other_error "data too short for COM_INIT_DB")
       | _ => inl {| mysqlparser.Status := status; mysqlparser.DbName := name |}
       end.
Proof.
  split.
  - intro H. unfold mysqlparser.decodeComInitDb in H.
    destruct (Z.ltb_spec (Z.of_nat (List.length data)) 2) as [Hshort | Hlong];
      [discriminate H|].
    destruct data as [|s rest]; [discriminate H|].
    injection H as <-. cbn [mysqlparser.Status mysqlparser.DbName].
    rewrite list_byte_of_string_of_list_byte. split; [reflexivity|].
    destruct rest as [|b rest]; [simpl in Hlong; lia|].
    intro E. apply (f_equal list_byte_of_string) in E.
    rewrite list_byte_of_string_of_list_byte in E. discriminate E.
  - destruct name as [|c name]; [reflexivity|].
    unfold mysqlparser.decodeComInitDb.
    destruct (Z.ltb_spec
                (Z.of_nat (List.length (status :: list_byte_of_string (String c name)))) 2)
      as [Hshort | Hlong].
    + exfalso. change (list_byte_of_string (String c name))
        with (byte_of_ascii c :: list_byte_of_string name) in Hshort.
      simpl in Hshort. lia.
    + rewrite string_of_list_byte_of_string. reflexivity.
Qed.

Lemma decodeComInitDb_round_trip_witness :
  mysqlparser.decodeComInitDb (x02 :: list_byte_of_string "mydb")
  = inl {| mysqlparser.Status := x02; mysqlparser.DbName := "mydb" |}
  /\ [x02; "m"%byte; "y"%byte; "d"%byte; "b"%byte] = x02 :: list_byte_of_string "mydb"
  /\ mysqlparser.decodeComInitDb [x03]
     = inr (other_error "data too short for COM_INIT_DB").
Proof.
  destruct (decodeComInitDb_round_trip
              [x02; "m"%byte; "y"%byte; "d"%byte; "b"%byte]
              {| mysqlparser.Status := x02; mysqlparser.DbName := "mydb" |}
              x02 "mydb") as [Hinv Henc].
  split; [exact Henc|]. split.
  - destruct (Hinv ltac:(vm_compute; reflexivity)) as [E _]. exact E.
  - destruct (decodeComInitDb_round_trip [] {| mysqlparser.Status := x03;
        mysqlparser.DbName := "" |} x03 "") as [_ Hempty].
    exact Hempty.
Defined.

(** ** package postgresparser: the detector *)

(** X6.  [OutgoingType] never panics, whatever the length and capacity of the
    buffer, and answers true exactly when the buffer has at least eight bytes
    and bytes 4 to 7 hold, big-endian, the protocol version 3.0 or the
    request code 80877103; the first four bytes and everything after the
    eighth do not matter. *)
Theorem OutgoingType_decides (buffer : slice) :
  exists b,
    OutgoingType buffer = Ok b
    /\ (b = true <->
        exists h0 h1 h2 h3 b0 b1 b2 b3 rest v,
          elems buffer = h0 :: h1 :: h2 :: h3 :: b0 :: b1 :: b2 :: b3 :: rest
          /\ Uint32 (bytes [b0; b1; b2; b3]) = Ok v
          /\ (v = ProtocolVersion \/ v = 80877103)).
Proof.
  destruct buffer as [l sp].
  destruct l as [|h0 [|h1 [|h2 [|h3 [|b0 [|b1 [|b2 [|b3 rest]]]]]]]].
  1-8: exists false; split;
    [apply OutgoingType_short; unfold len; simpl; lia
    | split; [discriminate | intros (? & ? & ? & ? & ? & ? & ? & ? & ? & ? & E & _);
                             discriminate E]].
  destruct (Uint32_ok (bytes [b0; b1; b2; b3])) as (v & Hv & _); [simpl; lia|].
  exists ((v =? 80877103) || (v =? ProtocolVersion)). split.
  - apply OutgoingType_version. exact Hv.
  - split.
    + intro H. exists h0, h1, h2, h3, b0, b1, b2, b3, rest, v.
      split; [reflexivity|]. split; [exact Hv|].
      apply orb_true_iff in H. destruct H as [H | H]; apply Z.eqb_eq in H; auto.
    + intros (h0' & h1' & h2' & h3' & b0' & b1' & b2' & b3' & rest' & v' & E & Hv' & Hcode).
      simpl in E. injection E as <- <- <- <- <- <- <- <- <-.
      rewrite Hv in Hv'. injection Hv' as <-.
      apply orb_true_iff. destruct Hcode as [-> | ->]; [right | left]; reflexivity.
Qed.

(** ** package postgresparser: what the framing loops produce *)

Lemma Uint32_nonneg (b : slice) (n : Z) : Uint32 b = Ok n -> 0 <= n.
Proof.
  intro H.
  assert (Hlen : (4 <= List.length (elems b))%nat).
  { unfold Uint32 in H.
    destruct (elems b) as [|b0 [|b1 [|b2 [|b3 rest]]]]; try discriminate H.
    simpl. lia. }
  destruct (Uint32_ok b Hlen) as (n' & Hn' & Hpos).
  rewrite H in Hn'. injection Hn' as <-. exact Hpos.
Qed.

Lemma index_tagAt (buffer : slice) (i : Z) (b : byte) :
  index buffer i = Ok b -> tagAt buffer i = string_of_byte_rune b.
Proof.
  unfold index, tagAt. destruct ((0 <=? i) && (i <? len buffer)); [|discriminate].
  destruct (nth_error (elems buffer) (Z.to_nat i)); [|discriminate].
  intro H. injection H as <-. reflexivity.
Qed.

Lemma header_frameEnd (buffer rest : slice) (i n : Z) :
  slice_from buffer (i + 1) = Ok rest -> Uint32 rest = Ok n ->
  frameEnd buffer i = i + (n - 4) + 5.
Proof. intros Hr Hn. unfold frameEnd. rewrite Hr. cbn [bind]. rewrite Hn. reflexivity. Qed.

Lemma endOf_cons (from lo hi : Z) (frames : list (Z * Z)) :
  endOf from ((lo, hi) :: frames) = endOf hi frames.
Proof. unfold endOf. cbn [map snd]. apply last_cons_default. Qed.

Lemma frameRequests_structure {P : Pgproto3} {C : Collaborators} (buffer : slice) :
  forall (fuel : nat) (i : Z) (pg : BackendWrapper.t) (frames : list (Z * Z))
         (pg' : BackendWrapper.t) (frames' : list (Z * Z)),
    frameRequests fuel buffer i pg frames = Ok (pg', frames') ->
    exists new,
      frames' = frames ++ new
      /\ tiles buffer i new
      /\ BackendWrapper.PacketTypes pg'
         = BackendWrapper.PacketTypes pg ++ map (fun f => tagAt buffer (fst f)) new
      /\ (len buffer - 5 <= endOf i new \/ len buffer < frameEnd buffer (endOf i new)).
Proof.
  induction fuel as [|fuel IH]; intros i pg frames pg' frames' Hrun;
    cbn [frameRequests] in Hrun;
    destruct (Z.ltb_spec i (len buffer - 5)) as [Hin | Hout]; try discriminate Hrun;
    try (injection Hrun as <- <-; exists []; rewrite !app_nil_r;
         split; [reflexivity | split; [exact I | split; [reflexivity | left; exact Hout]]]).
  destruct (index buffer i) as [msgType | |] eqn:Hm; cbn [bind] in Hrun;
    try discriminate Hrun.
  destruct (slice_from buffer (i + 1)) as [rest | |] eqn:Hr; cbn [bind] in Hrun;
    try discriminate Hrun.
  destruct (Uint32 rest) as [n | |] eqn:Hn; cbn [bind] in Hrun; try discriminate Hrun.
  pose proof (header_frameEnd buffer rest i n Hr Hn) as Hend.
  pose proof (Uint32_nonneg rest n Hn) as Hpos.
  destruct (Z.ltb_spec (len buffer) (i + (n - 4) + 5)) as [Hlong | Hfits].
  - injection Hrun as <- <-. exists []. rewrite !app_nil_r. cbn.
    split; [reflexivity|]. split; [exact I|]. split; [reflexivity|].
    right. unfold endOf. cbn. rewrite Hend. exact Hlong.
  - destruct (reslice buffer i (i + (n - 4) + 5)) as [f | |]; cbn [bind] in Hrun;
      try discriminate Hrun.
    destruct (TranslateToReadableBackend msgType (BackendWrapper.Decoded pg) (elems f))
      as [[d msg] err].
    destruct (storeBackendMessage msgType msg d) as [d' | |]; cbn [bind] in Hrun;
      try discriminate Hrun.
    destruct (IH _ _ _ _ _ Hrun) as (new & Hframes & Htiles & Htypes & Hstop).
    exists ((i, i + (n - 4) + 5) :: new).
    split; [rewrite Hframes, <- app_assoc; reflexivity|].
    replace (i + (5 + (n - 4))) with (i + (n - 4) + 5) in * by lia.
    split; [| split].
    + cbn [tiles]. split; [reflexivity|]. split; [lia|].
      split; [symmetry; exact Hend | exact Htiles].
    + rewrite Htypes. cbn [BackendWrapper.PacketTypes map fst].
      rewrite (index_tagAt buffer i msgType Hm), <- app_assoc. reflexivity.
    + rewrite endOf_cons. exact Hstop.
Qed.

(** X7.  When the request-side loop of the relay returns, the frames it
    handed to the translation start at offset 0 and follow one another
    without gap or overlap, each as long as its header declares; the packet
    types it added are the tag bytes at the starts of these frames, in order;
    and it stopped either with five bytes or fewer left or at a header whose
    frame would end past the buffer. *)
Theorem request_frames_tile_buffer {P : Pgproto3} {C : Collaborators}
    (buffer : slice) (pg pg' : BackendWrapper.t) (frames : list (Z * Z)) :
  frameRequests (List.length (elems buffer)) buffer 0 pg [] = Ok (pg', frames) ->
  tiles buffer 0 frames
  /\ BackendWrapper.PacketTypes pg'
     = BackendWrapper.PacketTypes pg ++ map (fun f => tagAt buffer (fst f)) frames
  /\ (len buffer - 5 <= endOf 0 frames \/ len buffer < frameEnd buffer (endOf 0 frames)).
Proof.
  intro Hrun.
  destruct (frameRequests_structure buffer _ _ _ _ _ _ Hrun)
    as (new & Hframes & Htiles & Htypes & Hstop).
  simpl in Hframes. subst new. auto.
Qed.

Lemma request_frames_tile_buffer_witness :
  exists pg',
    frameRequests 18 parseBindSync 0 NewBackend [] = Ok (pg', [(0, 6); (6, 13)])
    /\ tiles parseBindSync 0 [(0, 6); (6, 13)]
    /\ BackendWrapper.PacketTypes pg' = ["P"; "B"]
    /\ len parseBindSync - 5 <= 13.
Proof.
  eexists. split; [vm_compute; reflexivity|].
  edestruct (request_frames_tile_buffer (C := codec) parseBindSync NewBackend)
    as (Htiles & Htypes & Hstop).
  - vm_compute. reflexivity.
  - split; [exact Htiles|]. split; [exact Htypes|].
    destruct Hstop as [Hstop | Hstop]; [exact Hstop|].
    vm_compute in Hstop. discriminate Hstop.
Defined.

Lemma frameResponses_structure {P : Pgproto3} {C : Collaborators} (buffer : slice) :
  forall (fuel : nat) (i : Z) (sc : responseScratch) (frames : list (Z * Z))
         (sc' : responseScratch) (frames' : list (Z * Z)),
    frameResponses fuel buffer i sc frames = Ok (sc', frames') ->
    exists new,
      frames' = frames ++ new
      /\ tiles buffer i new
      /\ ((FrontendWrapper.PacketTypes (wrapper sc')
           = FrontendWrapper.PacketTypes (wrapper sc)
             ++ map (fun f => tagAt buffer (fst f)) new
           /\ len buffer - 5 <= endOf i new)
          \/ exists translated failed,
               new = translated ++ [failed]
               /\ FrontendWrapper.PacketTypes (wrapper sc')
                  = FrontendWrapper.PacketTypes (wrapper sc)
                    ++ map (fun f => tagAt buffer (fst f)) translated).
Proof.
  induction fuel as [|fuel IH]; intros i sc frames sc' frames' Hrun;
    cbn [frameResponses] in Hrun;
    destruct (Z.ltb_spec i (len buffer - 5)) as [Hin | Hout]; try discriminate Hrun;
    try (injection Hrun as <- <-; exists []; rewrite !app_nil_r;
         split; [reflexivity | split; [exact I | left; split; [reflexivity | exact Hout]]]).
  destruct (index buffer i) as [msgType | |] eqn:Hm; cbn [bind] in Hrun;
    try discriminate Hrun.
  destruct (slice_from buffer (i + 1)) as [rest | |] eqn:Hr; cbn [bind] in Hrun;
    try discriminate Hrun.
  destruct (Uint32 rest) as [n | |] eqn:Hn; cbn [bind] in Hrun; try discriminate Hrun.
  pose proof (header_frameEnd buffer rest i n Hr Hn) as Hend.
  pose proof (Uint32_nonneg rest n Hn) as Hpos.
  destruct (reslice buffer i (i + (n - 4) + 5)) as [f | |]; cbn [bind] in Hrun;
    try discriminate Hrun.
  assert (Hone : tiles buffer i [(i, i + (n - 4) + 5)]).
  { cbn [tiles]. split; [reflexivity|]. split; [lia|]. split; [symmetry; exact Hend | exact I]. }
  destruct (TranslateToReadableResponse msgType
              (FrontendWrapper.Decoded (wrapper sc)) (elems f)) as [[d msg] [err|]].
  - injection Hrun as <- <-. exists [(i, i + (n - 4) + 5)].
    split; [reflexivity|]. split; [exact Hone|].
    right. exists [], (i, i + (n - 4) + 5). split; [reflexivity|].
    cbn. rewrite app_nil_r. reflexivity.
  - destruct (storeBackendMessageResponse msgType msg d (ps sc) (dataRows sc))
      as [[[d' ps'] rows'] | |]; cbn [bind] in Hrun; try discriminate Hrun.
    destruct (IH _ _ _ _ _ Hrun) as (new & Hframes & Htiles & Hcases).
    replace (i + (5 + (n - 4))) with (i + (n - 4) + 5) in * by lia.
    exists ((i, i + (n - 4) + 5) :: new).
    split; [rewrite Hframes, <- app_assoc; reflexivity|].
    split.
    + cbn [tiles]. split; [reflexivity|]. split; [lia|].
      split; [symmetry; exact Hend | exact Htiles].
    + cbn [wrapper FrontendWrapper.PacketTypes] in Hcases.
      destruct Hcases as [[Htypes Hstop] | (translated & failed & Hnew & Htypes)].
      * left. split; [| rewrite endOf_cons; exact Hstop].
        rewrite Htypes. cbn [map fst].
        rewrite (index_tagAt buffer i msgType Hm), <- app_assoc. reflexivity.
      * right. exists ((i, i + (n - 4) + 5) :: translated), failed.
        split; [rewrite Hnew; reflexivity|].
        rewrite Htypes. cbn [map fst].
        rewrite (index_tagAt buffer i msgType Hm), <- app_assoc. reflexivity.
Qed.

(** X8.  When the response-side loop of the relay returns, the frames it
    handed to the translation start at offset 0 and follow one another
    without gap or overlap, each as long as its header declares.  Either
    every one of them was translated, the packet types added are their tag
    bytes in order and five bytes or fewer are left; or the translation of
    the last one failed, the loop stopped there, and the packet types added
    are the tags of the frames before it: the rest of the buffer is not
    framed. *)
Theorem response_frames_tile_buffer {P : Pgproto3} {C : Collaborators}
    (buffer : slice) (sc sc' : responseScratch) (frames : list (Z * Z)) :
  frameResponses (List.length (elems buffer)) buffer 0 sc [] = Ok (sc', frames) ->
  tiles buffer 0 frames
  /\ ((FrontendWrapper.PacketTypes (wrapper sc')
       = FrontendWrapper.PacketTypes (wrapper sc)
         ++ map (fun f => tagAt buffer (fst f)) frames
       /\ len buffer - 5 <= endOf 0 frames)
      \/ exists translated failed,
           frames = translated ++ [failed]
           /\ FrontendWrapper.PacketTypes (wrapper sc')
              = FrontendWrapper.PacketTypes (wrapper sc)
                ++ map (fun f => tagAt buffer (fst f)) translated).
Proof.
  intro Hrun.
  destruct (frameResponses_structure buffer _ _ _ _ _ _ Hrun)
    as (new & Hframes & Htiles & Hcases).
  simpl in Hframes. subst new. auto.
Qed.

Lemma response_frames_tile_buffer_witness :
  exists sc',
    frameResponses 18 answerWithUnknownTag 0 (mkScratch NewFrontend [] []) []
    = Ok (sc', [(0, 6); (6, 12)])
    /\ tiles answerWithUnknownTag 0 [(0, 6); (6, 12)]
    /\ FrontendWrapper.PacketTypes (wrapper sc') = ["T"]
    /\ len answerWithUnknownTag = 18.
Proof.
  eexists. split; [vm_compute; reflexivity|].
  edestruct (response_frames_tile_buffer (C := codec) answerWithUnknownTag
               (mkScratch NewFrontend [] [])) as (Htiles & Hcases).
  - vm_compute. reflexivity.
  - split; [exact Htiles|]. split; [reflexivity | reflexivity].
Defined.

(** ** package postgresparser: runs of the relay *)

(** What one turn of the loop forwards: a buffer handled without returning is
    written to the peer as it is; a turn that returns writes nothing. *)
Lemma step_forwards {P : Pgproto3} {C : Collaborators}
    (requestBuffer : slice) (st : Relay) (ev : Event) (s : status) (st' : Relay) :
  step requestBuffer st ev = Ok (s, st') ->
  match s with
  | Running =>
      destWritten st' = destWritten st ++ clientBuffers [ev]
      /\ clientWritten st' = clientWritten st ++ destBuffers [ev]
  | Returned _ =>
      destWritten st' = destWritten st /\ clientWritten st' = clientWritten st
  end.
Proof.
  intro Hstep. destruct ev as [| buffer w | buffer n1 n2 w | err]; simpl in Hstep.
  - unfold onSignal in Hstep. destruct (flushCondition st) eqn:E.
    + injection Hstep as <- <-. unfold flushChunk. rewrite E. split; reflexivity.
    + injection Hstep as <- <-. cbn. rewrite !app_nil_r. split; reflexivity.
  - unfold onClientBuffer in Hstep. destruct w as [e|].
    + injection Hstep as <- <-. split; reflexivity.
    + destruct (recordRequest requestBuffer buffer); cbn [bind] in Hstep;
        try discriminate Hstep.
      injection Hstep as <- <-. cbn. rewrite app_nil_r.
      unfold flushChunk. destruct (flushCondition st); split; reflexivity.
  - unfold onDestBuffer in Hstep. destruct w as [e|].
    + injection Hstep as <- <-. split; reflexivity.
    + destruct (recordResponse requestBuffer buffer); cbn [bind] in Hstep;
        try discriminate Hstep.
      injection Hstep as <- <-. cbn. rewrite app_nil_r. split; reflexivity.
  - injection Hstep as <- <-. split; reflexivity.
Qed.

Lemma runRelay_forwards {P : Pgproto3} {C : Collaborators} (requestBuffer : slice) :
  forall (evs : list Event) (st : Relay) (s : status) (st' : Relay),
    runRelay requestBuffer st evs = Ok (s, st') ->
    exists handled rest,
      evs = handled ++ rest
      /\ (s = Running -> rest = [])
      /\ destWritten st' = destWritten st ++ clientBuffers handled
      /\ clientWritten st' = clientWritten st ++ destBuffers handled.
Proof.
  induction evs as [|ev evs IH]; intros st s st' Hrun.
  - simpl in Hrun. injection Hrun as <- <-. exists [], [].
    cbn. rewrite !app_nil_r. auto.
  - cbn [runRelay] in Hrun.
    destruct (step requestBuffer st ev) as [[[|err] st1] | |] eqn:Hstep;
      cbn [bind] in Hrun; try discriminate Hrun.
    + destruct (step_forwards _ _ _ _ _ Hstep) as [Hd Hc].
      destruct (IH _ _ _ Hrun) as (handled & rest & -> & Hrest & Hd' & Hc').
      exists (ev :: handled), rest. split; [reflexivity|]. split; [exact Hrest|].
      rewrite Hd', Hc', Hd, Hc, <- !app_assoc.
      change (ev :: handled) with ([ev] ++ handled).
      unfold clientBuffers, destBuffers. rewrite !flat_map_app. split; reflexivity.
    + injection Hrun as <- <-.
      destruct (step_forwards _ _ _ _ _ Hstep) as [Hd Hc].
      exists [], (ev :: evs). cbn. rewrite !app_nil_r.
      split; [reflexivity|]. split; [discriminate|]. split; assumption.
Qed.

(** X9.  The relay forwards verbatim and in order, whatever it makes of the
    bytes: when [encodePostgresOutgoing] has handled a prefix of its events
    (all of them if it is still running), the destination has received the
    first request buffer followed by the buffers of the client events of that
    prefix, and the client has received the buffers of its server events,
    each exactly once and unchanged. *)
Theorem relay_forwards_verbatim {P : Pgproto3} {C : Collaborators}
    (requestBuffer : slice) (now : Z) (evs : list Event) (s : status) (st' : Relay) :
  encodePostgresOutgoing requestBuffer now None evs = Ok (s, st') ->
  exists handled rest,
    evs = handled ++ rest
    /\ (s = Running -> rest = [])
    /\ destWritten st' = elems requestBuffer :: clientBuffers handled
    /\ clientWritten st' = destBuffers handled.
Proof.
  unfold encodePostgresOutgoing, start.
  destruct (DecodeStartupMessage NewBackend (elems requestBuffer)) as [pg e].
  intro Hrun.
  destruct (runRelay_forwards requestBuffer _ _ _ _ Hrun)
    as (handled & rest & Hevs & Hrest & Hd & Hc).
  exists handled, rest. auto.
Qed.

Lemma relay_forwards_verbatim_witness :
  destWritten (afterEvents exchange) = [startup60; elems queryBuffer]
  /\ clientWritten (afterEvents exchange) = [elems answerBuffer].
Proof.
  destruct (relay_forwards_verbatim (C := codec) (bytes startup60) 0 exchange Running
              (afterEvents exchange) ltac:(vm_compute; reflexivity))
    as (handled & rest & Hevs & Hrest & Hd & Hc).
  rewrite (Hrest eq_refl), app_nil_r in Hevs. subst handled.
  split; [exact Hd | exact Hc].
Defined.

Lemma flushChunk_keeps_entries {P : Pgproto3} {C : Collaborators} (st : Relay) :
  allRequests (flushChunk st) = allRequests st
  /\ allResponses (flushChunk st) = allResponses st.
Proof.
  unfold flushChunk, allRequests, allResponses.
  destruct (flushCondition st); [| split; reflexivity].
  cbn [appended pgRequests pgResponses]. rewrite !flat_map_app. cbn.
  rewrite !app_nil_r. split; reflexivity.
Qed.

Lemma step_keeps_entries {P : Pgproto3} {C : Collaborators}
    (requestBuffer : slice) (st : Relay) (ev : Event) (s : status) (st' : Relay) :
  step requestBuffer st ev = Ok (s, st') ->
  match s with
  | Running =>
      allRequests st' = allRequests st ++ requestEntries requestBuffer [ev]
      /\ allResponses st' = allResponses st ++ responseEntries requestBuffer [ev]
  | Returned _ =>
      allRequests st' = allRequests st /\ allResponses st' = allResponses st
  end.
Proof.
  intro Hstep. destruct (flushChunk_keeps_entries st) as [Hq Hr].
  destruct ev as [| buffer w | buffer n1 n2 w | err]; simpl in Hstep.
  - unfold onSignal in Hstep. destruct (flushCondition st) eqn:E.
    + injection Hstep as <- <-. rewrite <- Hq, <- Hr. split; reflexivity.
    + injection Hstep as <- <-. cbn. rewrite !app_nil_r. split; reflexivity.
  - unfold onClientBuffer in Hstep. destruct w as [e|].
    + injection Hstep as <- <-. split; reflexivity.
    + destruct (recordRequest requestBuffer buffer) as [entries | |] eqn:Erec;
        cbn [bind] in Hstep; try discriminate Hstep.
      injection Hstep as <- <-. rewrite <- Hq, <- Hr.
      unfold allRequests, allResponses, requestEntries.
      cbn. rewrite Erec, !app_nil_r, <- app_assoc. split; reflexivity.
  - unfold onDestBuffer in Hstep. destruct w as [e|].
    + injection Hstep as <- <-. split; reflexivity.
    + destruct (recordResponse requestBuffer buffer) as [entries | |] eqn:Erec;
        cbn [bind] in Hstep; try discriminate Hstep.
      injection Hstep as <- <-.
      unfold allRequests, allResponses, responseEntries.
      cbn. rewrite Erec, !app_nil_r, <- app_assoc. split; reflexivity.
  - injection Hstep as <- <-. split; reflexivity.
Qed.

Lemma runRelay_keeps_entries {P : Pgproto3} {C : Collaborators} (requestBuffer : slice) :
  forall (evs : list Event) (st : Relay) (s : status) (st' : Relay),
    runRelay requestBuffer st evs = Ok (s, st') ->
    exists handled rest,
      evs = handled ++ rest
      /\ (s = Running -> rest = [])
      /\ allRequests st' = allRequests st ++ requestEntries requestBuffer handled
      /\ allResponses st' = allResponses st ++ responseEntries requestBuffer handled.
Proof.
  induction evs as [|ev evs IH]; intros st s st' Hrun.
  - simpl in Hrun. injection Hrun as <- <-. exists [], [].
    cbn. rewrite !app_nil_r. auto.
  - cbn [runRelay] in Hrun.
    destruct (step requestBuffer st ev) as [[[|err] st1] | |] eqn:Hstep;
      cbn [bind] in Hrun; try discriminate Hrun.
    + destruct (step_keeps_entries _ _ _ _ _ Hstep) as [Hq Hr].
      destruct (IH _ _ _ Hrun) as (handled & rest & -> & Hrest & Hq' & Hr').
      exists (ev :: handled), rest. split; [reflexivity|]. split; [exact Hrest|].
      rewrite Hq', Hr', Hq, Hr, <- !app_assoc.
      change (ev :: handled) with ([ev] ++ handled).
      unfold requestEntries, responseEntries. rewrite !flat_map_app. split; reflexivity.
    + injection Hrun as <- <-.
      destruct (step_keeps_entries _ _ _ _ _ Hstep) as [Hq Hr].
      exists [], (ev :: evs). cbn. rewrite !app_nil_r.
      split; [reflexivity|]. split; [discriminate|]. split; assumption.
Qed.

(** X10.  Flushing neither loses, duplicates nor reorders an entry: when
    [encodePostgresOutgoing] has handled a prefix of its events, the request
    entries of the mocks appended so far followed by the pending request list
    are the entry of the first buffer followed by the entries of the client
    buffers of that prefix, in order of arrival; likewise the response
    entries are those of its server buffers. *)
Theorem relay_keeps_every_entry {P : Pgproto3} {C : Collaborators}
    (requestBuffer : slice) (now : Z) (evs : list Event) (s : status) (st' : Relay) :
  encodePostgresOutgoing requestBuffer now None evs = Ok (s, st') ->
  exists handled rest,
    evs = handled ++ rest
    /\ (s = Running -> rest = [])
    /\ allRequests st'
       = pgRequests (snd (start requestBuffer now None))
         ++ requestEntries requestBuffer handled
    /\ allResponses st' = responseEntries requestBuffer handled.
Proof.
  unfold encodePostgresOutgoing.
  destruct (start requestBuffer now None) as [[|err] st] eqn:Hstart.
  - intro Hrun.
    destruct (runRelay_keeps_entries requestBuffer _ _ _ _ Hrun)
      as (handled & rest & Hevs & Hrest & Hq & Hr).
    exists handled, rest. split; [exact Hevs|]. split; [exact Hrest|].
    assert (Happ : appended st = [] /\ pgResponses st = []).
    { unfold start in Hstart.
      destruct (DecodeStartupMessage NewBackend (elems requestBuffer)).
      injection Hstart as <-. split; reflexivity. }
    destruct Happ as [Ha Hp].
    unfold allRequests, allResponses in Hq, Hr. rewrite Ha, Hp in *.
    cbn in Hq, Hr. split; [exact Hq | exact Hr].
  - unfold start in Hstart.
    destruct (DecodeStartupMessage NewBackend (elems requestBuffer)).
    discriminate Hstart.
Qed.

Lemma relay_keeps_every_entry_witness :
  let st3 := afterEvents (exchange ++ [clientBufferChannel queryBuffer None]) in
  List.length (appended st3) = 1%nat
  /\ List.length (allRequests st3) = 3%nat
  /\ allRequests st3
     = pgRequests afterStart
       ++ requestEntries (bytes startup60)
            (exchange ++ [clientBufferChannel queryBuffer None])
  /\ allResponses st3
     = responseEntries (bytes startup60)
         (exchange ++ [clientBufferChannel queryBuffer None]).
Proof.
  intro st3.
  destruct (relay_keeps_every_entry (C := codec) (bytes startup60) 0
              (exchange ++ [clientBufferChannel queryBuffer None]) Running st3
              ltac:(vm_compute; reflexivity))
    as (handled & rest & Hevs & Hrest & Hq & Hr).
  rewrite (Hrest eq_refl), app_nil_r in Hevs. subst handled.
  split; [reflexivity|]. split; [reflexivity|]. split; [exact Hq | exact Hr].
Defined.

Lemma flushChunk_invariant {P : Pgproto3} {C : Collaborators} (st : Relay) :
  relayInvariant st -> relayInvariant (flushChunk st).
Proof.
  intros (Hreq & Hres & Hmocks & Hclosed). unfold flushChunk.
  destruct (flushCondition st) eqn:E; [| repeat split; assumption].
  apply flushCondition_true in E. destruct E as (_ & Hq & Hr).
  repeat split; cbn; trivial.
  - intro H. contradiction.
  - apply Forall_app. split; [exact Hmocks|]. constructor; [| constructor].
    unfold completeMock, chunkMock. cbn. repeat split; auto.
Qed.

Lemma step_invariant {P : Pgproto3} {C : Collaborators}
    (requestBuffer : slice) (st : Relay) (ev : Event) (s : status) (st' : Relay) :
  relayInvariant st ->
  step requestBuffer st ev = Ok (s, st') ->
  match s with
  | Running => relayInvariant st'
  | Returned err =>
      Forall completeMock (appended st') /\ (closed st' = true <-> err = None)
  end.
Proof.
  intros Hinv Hstep. pose proof (flushChunk_invariant st Hinv) as Hflush.
  destruct Hinv as (Hreq & Hres & Hmocks & Hclosed).
  destruct ev as [| buffer w | buffer n1 n2 w | err]; simpl in Hstep.
  - unfold onSignal in Hstep. destruct (flushCondition st) eqn:E.
    + injection Hstep as <- <-. cbn.
      destruct Hflush as (_ & _ & Hm & _). split; [exact Hm|]. split; reflexivity.
    + injection Hstep as <- <-. repeat split; assumption.
  - unfold onClientBuffer in Hstep. destruct w as [e|].
    + injection Hstep as <- <-. split; [exact Hmocks|].
      rewrite Hclosed. split; discriminate.
    + destruct (recordRequest requestBuffer buffer); cbn [bind] in Hstep;
        try discriminate Hstep.
      injection Hstep as <- <-.
      destruct Hflush as (Hq & Hr & Hm & Hc). repeat split; cbn; assumption.
  - unfold onDestBuffer in Hstep. destruct w as [e|].
    + injection Hstep as <- <-. cbn. split; [exact Hmocks|].
      rewrite Hclosed. split; discriminate.
    + destruct (recordResponse requestBuffer buffer); cbn [bind] in Hstep;
        try discriminate Hstep.
      injection Hstep as <- <-. repeat split; cbn; trivial; try discriminate.
      destruct (isPreviousChunkRequest st); [discriminate | exact Hreq].
  - injection Hstep as <- <-. split; [exact Hmocks|].
    rewrite Hclosed. split; discriminate.
Qed.

Lemma runRelay_invariant {P : Pgproto3} {C : Collaborators} (requestBuffer : slice) :
  forall (evs : list Event) (st : Relay) (s : status) (st' : Relay),
    relayInvariant st ->
    runRelay requestBuffer st evs = Ok (s, st') ->
    match s with
    | Running => relayInvariant st'
    | Returned err =>
        Forall completeMock (appended st') /\ (closed st' = true <-> err = None)
    end.
Proof.
  induction evs as [|ev evs IH]; intros st s st' Hinv Hrun.
  - simpl in Hrun. injection Hrun as <- <-. exact Hinv.
  - cbn [runRelay] in Hrun.
    destruct (step requestBuffer st ev) as [[[|err] st1] | |] eqn:Hstep;
      cbn [bind] in Hrun; try discriminate Hrun.
    + apply (IH st1); [| exact Hrun]. exact (step_invariant _ _ _ _ _ Hinv Hstep).
    + injection Hrun as <- <-. exact (step_invariant _ _ _ _ _ Hinv Hstep).
Qed.

(** X11.  Every mock [encodePostgresOutgoing] hands to [AppendMocks] is
    complete: it has at least one request entry and one response entry, both
    timestamps set, the name "mocks", the Postgres kind and the metadata
    [type = config].  And the function closes the two connections exactly
    when it returns nil, after the flush on a signal: while it runs and when
    it returns an error they are left open. *)
Theorem relay_appends_complete_mocks {P : Pgproto3} {C : Collaborators}
    (requestBuffer : slice) (now : Z) (writeErr : option error)
    (evs : list Event) (s : status) (st' : Relay) :
  encodePostgresOutgoing requestBuffer now writeErr evs = Ok (s, st') ->
  Forall completeMock (appended st')
  /\ (closed st' = true <-> s = Returned None).
Proof.
  unfold encodePostgresOutgoing.
  destruct (start requestBuffer now writeErr) as [[|err] st] eqn:Hstart;
    unfold start in Hstart;
    destruct (DecodeStartupMessage NewBackend (elems requestBuffer)) as [pg e];
    destruct writeErr as [w|]; try discriminate Hstart.
  - injection Hstart as <-. intro Hrun.
    assert (Hinv : relayInvariant
                     (mkRelay
                        (if negb (String.eqb (EncodeToString (elems requestBuffer)) "")
                         then [firstRequestEntry requestBuffer pg
                                 (EncodeToString (elems requestBuffer))]
                         else [])
                        [] false (Some now) None [elems requestBuffer] [] [] false)).
    { repeat split; cbn; try discriminate; auto. }
    pose proof (runRelay_invariant requestBuffer _ _ _ _ Hinv Hrun) as H.
    destruct s as [|err].
    + destruct H as (_ & _ & Hm & Hc). split; [exact Hm|].
      rewrite Hc. split; discriminate.
    + destruct H as [Hm Hc]. split; [exact Hm|]. rewrite Hc.
      split; [intros ->; reflexivity | intro E; injection E as ->; reflexivity].
  - injection Hstart as <- <-. intro H. injection H as <- <-. cbn.
    split; [constructor|]. split; discriminate.
Qed.

Lemma relay_appends_complete_mocks_witness :
  let evs := exchange ++ [sigChan] in
  exists st',
    encodePostgresOutgoing (bytes startup60) 0 None evs = Ok (Returned None, st')
    /\ List.length (appended st') = 1%nat
    /\ Forall completeMock (appended st')
    /\ closed st' = true.
Proof.
  intro evs. eexists. split; [vm_compute; reflexivity|].
  edestruct (relay_appends_complete_mocks (C := codec) (bytes startup60) 0 None evs)
    as [Hm Hc].
  - vm_compute. reflexivity.
  - split; [reflexivity|]. split; [exact Hm|]. apply Hc. reflexivity.
Defined.

(** ** package postgresparser: what a buffer adds to the lists *)

Lemma guardRequest_labels {P : Pgproto3} {C : Collaborators}
    (afterEncoded : list byte) (buffer : slice) (bufStr : string) (pgMock e : Backend.t) :
  guardRequest afterEncoded buffer bufStr pgMock = Ok e ->
  Backend.Identfier e = Backend.Identfier pgMock
  /\ Backend.Length e = Backend.Length pgMock
  /\ Backend.PacketTypes e = Backend.PacketTypes pgMock.
Proof.
  unfold guardRequest.
  destruct (negb (Z.of_nat (List.length afterEncoded) =? len buffer));
    [destruct (firstPacketType (Backend.PacketTypes pgMock)) as [t | |];
     cbn [bind]; try discriminate |];
    cbn [bind]; intro H; injection H as <-;
    try match goal with |- context [if ?c then _ else _] => destruct c end;
    repeat split; reflexivity.
Qed.

Lemma guardResponse_labels {P : Pgproto3} {C : Collaborators}
    (afterEncoded : list byte) (buffer : slice) (bufStr : string) (pgMock e : Frontend.t) :
  guardResponse afterEncoded buffer bufStr pgMock = Ok e ->
  Frontend.Identfier e = Frontend.Identfier pgMock
  /\ Frontend.Length e = Frontend.Length pgMock
  /\ Frontend.PacketTypes e = Frontend.PacketTypes pgMock.
Proof.
  unfold guardResponse.
  destruct (negb (Z.of_nat (List.length afterEncoded) =? len buffer));
    [destruct (firstPacketType (Frontend.PacketTypes pgMock)) as [t | |];
     cbn [bind]; try discriminate |];
    cbn [bind]; intro H; injection H as <-;
    try match goal with |- context [if ?c then _ else _] => destruct c end;
    repeat split; reflexivity.
Qed.

(** X12.  A client buffer adds at most one request entry.  It adds none when
    it is empty or when it has five bytes or fewer and is not a startup
    packet (such a buffer is forwarded without a trace in the mock); a startup
    packet adds the opaque startup entry; any other buffer adds one
    "ClientRequest" entry, whose [Length] is the length of the buffer the
    relay was started with (modulo 2^32), not that of the buffer itself. *)
Theorem client_buffer_adds_at_most_one_entry {P : Pgproto3} {C : Collaborators}
    (requestBuffer buffer : slice) (entries : list Backend.t) :
  recordRequest requestBuffer buffer = Ok entries ->
  (entries = []
   /\ (elems buffer = [] \/ (isStartupPacket (elems buffer) = false /\ len buffer <= 5)))
  \/ (elems buffer <> []
      /\ isStartupPacket (elems buffer) = true
      /\ entries = [startupRequestEntry (EncodeToString (elems buffer))])
  \/ (isStartupPacket (elems buffer) = false
      /\ 5 < len buffer
      /\ exists e,
           entries = [e]
           /\ Backend.Identfier e = "ClientRequest"
           /\ Backend.Length e = uint32 (len requestBuffer)).
Proof.
  unfold recordRequest. rewrite EncodeToString_eqb_empty.
  destruct (elems buffer) as [|b l] eqn:E.
  { intro H. injection H as <-. left. auto. }
  cbn [negb]. rewrite <- E.
  destruct (isStartupPacket (elems buffer)) eqn:Hs; cbn [negb andb].
  - cbn [bind app]. intro H. injection H as <-.
    right. left. split; [rewrite E; discriminate|]. auto.
  - destruct (Z.ltb_spec 5 (len buffer)) as [Hlong | Hshort].
    + destruct (decodeRequestBuffer requestBuffer buffer (EncodeToString (elems buffer)))
        as [e | |] eqn:Hdec; cbn [bind]; try discriminate.
      intro H. injection H as <-. right. right.
      split; [reflexivity|]. split; [exact Hlong|]. exists e.
      split; [reflexivity|].
      unfold decodeRequestBuffer in Hdec.
      destruct (frameRequests (List.length (elems buffer)) buffer 0 NewBackend [])
        as [[pg frames] | |]; cbn [bind] in Hdec; try discriminate Hdec.
      destruct (PostgresDecoderBackend (clientRequestEntry requestBuffer pg))
        as [afterEncoded err].
      destruct (guardRequest_labels _ _ _ _ _ Hdec) as (Hid & Hlen & _).
      rewrite Hid, Hlen. split; reflexivity.
    + cbn [bind app]. intro H. injection H as <-. left. auto.
Qed.

Lemma client_buffer_adds_at_most_one_entry_witness :
  recordRequest (bytes startup60) (bytes (frame "X"%byte [])) = Ok []
  /\ exists e,
       recordRequest (bytes startup60) queryBuffer = Ok [e]
       /\ Backend.Length e = 60 /\ len queryBuffer = 13.
Proof.
  split; [reflexivity|].
  destruct (recordRequest (bytes startup60) queryBuffer) as [entries | |] eqn:Hrec;
    try (vm_compute in Hrec; discriminate Hrec).
  destruct (client_buffer_adds_at_most_one_entry (C := codec) (bytes startup60)
              queryBuffer entries Hrec)
    as [[H _] | [(_ & H & _) | (_ & _ & e & He & _ & Hlen)]].
  - subst entries. vm_compute in Hrec. discriminate Hrec.
  - vm_compute in H. discriminate H.
  - exists e. subst entries. split; [reflexivity|]. split; [exact Hlen | reflexivity].
Defined.

(** X13.  A server buffer adds at most one response entry.  It adds none when
    it is empty or when it has more than five bytes and the startup detector
    accepts it; a buffer of five bytes or fewer adds the raw entry holding
    only its base64 text; any other buffer adds one "ServerResponse" entry,
    whose [Length] is again the length of the first request buffer. *)
Theorem server_buffer_adds_at_most_one_entry {P : Pgproto3} {C : Collaborators}
    (requestBuffer buffer : slice) (entries : list Frontend.t) :
  recordResponse requestBuffer buffer = Ok entries ->
  (entries = []
   /\ (elems buffer = [] \/ (isStartupPacket (elems buffer) = true /\ 5 < len buffer)))
  \/ (elems buffer <> []
      /\ len buffer <= 5
      /\ entries = [rawResponseEntry (EncodeToString (elems buffer))])
  \/ (isStartupPacket (elems buffer) = false
      /\ 5 < len buffer
      /\ exists e,
           entries = [e]
           /\ Frontend.Identfier e = "ServerResponse"
           /\ Frontend.Length e = uint32 (len requestBuffer)).
Proof.
  unfold recordResponse. rewrite EncodeToString_eqb_empty.
  destruct (elems buffer) as [|b l] eqn:E.
  { intro H. injection H as <-. left. auto. }
  cbn [negb]. rewrite <- E.
  destruct (Z.ltb_spec 5 (len buffer)) as [Hlong | Hshort].
  - destruct (long_buffer_base64 buffer Hlong) as (_ & Hsent & _ & Hle).
    rewrite Hsent, Hle. cbn [negb orb andb]. rewrite andb_true_r.
    destruct (isStartupPacket (elems buffer)) eqn:Hs; cbn [negb].
    + cbn [bind app]. intro H. injection H as <-. left. auto.
    + destruct (decodeResponseBuffer requestBuffer buffer (EncodeToString (elems buffer)))
        as [e | |] eqn:Hdec; cbn [bind]; try discriminate.
      cbn [app]. intro H. injection H as <-. right. right.
      split; [reflexivity|]. split; [exact Hlong|]. exists e.
      split; [reflexivity|].
      unfold decodeResponseBuffer in Hdec.
      destruct (frameResponses (List.length (elems buffer)) buffer 0
                  (mkScratch NewFrontend [] []) [])
        as [[sc frames] | |]; cbn [bind] in Hdec; try discriminate Hdec.
      destruct (PostgresDecoderFrontend
                  (serverResponseEntry requestBuffer (combineScratch sc)))
        as [afterEncoded err].
      destruct (guardResponse_labels _ _ _ _ _ Hdec) as (Hid & Hlen & _).
      rewrite Hid, Hlen. split; reflexivity.
  - assert (Hle : (len buffer <=? 5) = true) by (apply Z.leb_le; exact Hshort).
    rewrite Hle, orb_true_r, andb_false_r, andb_false_l. cbn [bind app].
    intro H. injection H as <-. right. left.
    split; [rewrite E; discriminate|]. auto.
Qed.

Lemma server_buffer_adds_at_most_one_entry_witness :
  recordResponse (bytes startup60) (bytes ["N"%byte]) = Ok [rawResponseEntry "Tg=="]
  /\ exists e,
       recordResponse (bytes startup60) answerBuffer = Ok [e]
       /\ Frontend.Length e = 60 /\ len answerBuffer = 19.
Proof.
  split; [reflexivity|].
  destruct (recordResponse (bytes startup60) answerBuffer) as [entries | |] eqn:Hrec;
    try (vm_compute in Hrec; discriminate Hrec).
  destruct (server_buffer_adds_at_most_one_entry (C := codec) (bytes startup60)
              answerBuffer entries Hrec)
    as [[H _] | [(_ & H & _) | (_ & _ & e & He & _ & Hlen)]].
  - subst entries. vm_compute in Hrec. discriminate Hrec.
  - vm_compute in H. exfalso. apply H. reflexivity.
  - exists e. subst entries. split; [reflexivity|]. split; [exact Hlen | reflexivity].
Defined.

(** ** package postgresparser: [ReadBuffConn] *)

(** X14.  [ReadBuffConn] publishes, in order, the buffer of every read up to
    the first read that fails while the application has not been asked to
    terminate, including the buffers of reads whose error it ignores because
    termination was requested; it returns only at such a failing read, with
    its error.  It sends at most one error on the error channel, the one it
    returns, and never [io.EOF]: on end of file it returns without telling
    the relay loop. *)
Theorem ReadBuffConn_publishes_until_failure (reads : list ReadOutcome) :
  (sentErrors (ReadBuffConn reads) = []
   \/ exists e,
        sentErrors (ReadBuffConn reads) = [e]
        /\ e <> io_EOF
        /\ readerReturned (ReadBuffConn reads) = Some e)
  /\ match readerReturned (ReadBuffConn reads) with
     | None =>
         sentBuffers (ReadBuffConn reads) = map readBuffer reads
         /\ Forall readGoesOn reads
         /\ sentErrors (ReadBuffConn reads) = []
     | Some err =>
         exists before failing after,
           reads = before ++ failing :: after
           /\ Forall readGoesOn before
           /\ readErr failing = Some err
           /\ readTerminateInitiated failing = false
           /\ sentBuffers (ReadBuffConn reads) = map readBuffer before
           /\ (err = io_EOF -> sentErrors (ReadBuffConn reads) = [])
     end.
Proof.
  induction reads as [|r reads IH].
  - cbn. split; [left; reflexivity|]. auto.
  - assert (Hpublish :
      readGoesOn r ->
      ReadBuffConn (r :: reads)
      = mkReader (readBuffer r :: sentBuffers (ReadBuffConn reads))
          (sentErrors (ReadBuffConn reads)) (readerReturned (ReadBuffConn reads)) ->
      (sentErrors (ReadBuffConn (r :: reads)) = []
       \/ exists e,
            sentErrors (ReadBuffConn (r :: reads)) = [e]
            /\ e <> io_EOF
            /\ readerReturned (ReadBuffConn (r :: reads)) = Some e)
      /\ match readerReturned (ReadBuffConn (r :: reads)) with
         | None =>
             sentBuffers (ReadBuffConn (r :: reads)) = map readBuffer (r :: reads)
             /\ Forall readGoesOn (r :: reads)
             /\ sentErrors (ReadBuffConn (r :: reads)) = []
         | Some err =>
             exists before failing after,
               r :: reads = before ++ failing :: after
               /\ Forall readGoesOn before
               /\ readErr failing = Some err
               /\ readTerminateInitiated failing = false
               /\ sentBuffers (ReadBuffConn (r :: reads)) = map readBuffer before
               /\ (err = io_EOF -> sentErrors (ReadBuffConn (r :: reads)) = [])
         end).
    { intros Hgo ->. cbn [sentErrors readerReturned sentBuffers].
      destruct IH as [Herrs Hret]. split; [exact Herrs|].
      destruct (readerReturned (ReadBuffConn reads)) as [err|].
      - destruct Hret as (before & failing & after & -> & Hgo' & He & Ht & Hb & Heof).
        exists (r :: before), failing, after.
        split; [reflexivity|]. split; [constructor; assumption|].
        split; [exact He|]. split; [exact Ht|].
        split; [cbn; rewrite Hb; reflexivity | exact Heof].
      - destruct Hret as (Hb & Hgo' & He).
        split; [cbn; rewrite Hb; reflexivity|].
        split; [constructor; assumption | exact He]. }
    destruct (readErr r) as [err|] eqn:Herr.
    + destruct (readTerminateInitiated r) eqn:Hterm.
      * apply Hpublish; [right; exact Hterm|].
        cbn [ReadBuffConn]. rewrite Herr, Hterm. reflexivity.
      * cbn [ReadBuffConn]. rewrite Herr, Hterm. cbn [negb].
        assert (Hstop : exists before failing after,
                   r :: reads = before ++ failing :: after
                   /\ Forall readGoesOn before
                   /\ readErr failing = Some err
                   /\ readTerminateInitiated failing = false
                   /\ @nil slice = map readBuffer before).
        { exists [], r, reads. repeat split; auto. }
        destruct Hstop as (before & failing & after & H1 & H2 & H3 & H4 & H5).
        destruct err as [| | msg]; cbn [sentErrors readerReturned sentBuffers].
        -- split; [left; reflexivity|].
           exists before, failing, after. repeat split; auto.
        -- split; [right; exists net_timeout; repeat split; [discriminate]|].
           exists before, failing, after. repeat split; auto. discriminate.
        -- split; [right; exists (other_error msg); repeat split; [discriminate]|].
           exists before, failing, after. repeat split; auto. discriminate.
    + apply Hpublish; [left; exact Herr|].
      cbn [ReadBuffConn]. rewrite Herr. reflexivity.
Qed.

(** ** package postgresparser: replay sessions *)

Lemma write_loop_prefix {P : Pgproto3} {C : Collaborators}
    (before rest : list Frontend.t) :
  (forall r, In r before -> snd (encodeResponse r) = None) ->
  forall (w : Wire) (cs : list Call),
    answers (mkSession (replyNext (before ++ rest)) w cs)
      (map (fun _ => ansClientWrite None) before)
    = Some (mkSession (replyNext rest)
              (mkWire (toDest w)
                 (toClient w ++ map (fun r => fst (encodeResponse r)) before))
              (cs ++ map (fun r => callClientWrite (fst (encodeResponse r))) before)).
Proof.
  induction before as [|r before IH]; intros Hok w cs.
  - simpl. rewrite !app_nil_r. destruct w. reflexivity.
  - assert (Hr : snd (encodeResponse r) = None) by (apply Hok; left; reflexivity).
    cbn [map answers app]. unfold answer. cbn [replayer replyNext].
    destruct (encodeResponse r) as [encoded err] eqn:E. simpl in Hr. subst err.
    cbn [pendingCall resume wire calls wireAfter fst].
    rewrite IH by (intros r' Hin; apply Hok; right; exact Hin).
    cbn [toDest toClient]. rewrite <- !app_assoc. reflexivity.
Qed.

(** X15.  A matched reply is not all-or-nothing: when the encoding of an
    entry fails, the entries before it have already been written to the
    client, in order, and [decodePostgresOutgoing] returns the encoding error
    without writing that entry or any later one. *)
Theorem replay_stops_at_failing_entry {P : Pgproto3} {C : Collaborators}
    (pgRequests : list (list byte)) (before after : list Frontend.t)
    (failing : Frontend.t) (err : error) (w : Wire) (cs : list Call) :
  (forall r, In r before -> snd (encodeResponse r) = None) ->
  snd (encodeResponse failing) = Some err ->
  answers (mkSession (atMatchingReadablePG pgRequests) w cs)
    (ansMatchingReadablePG true (before ++ failing :: after) None
     :: map (fun _ => ansClientWrite None) before)
  = Some (mkSession (returned err)
            (mkWire (toDest w)
               (toClient w ++ map (fun r => fst (encodeResponse r)) before))
            (cs ++ callMatchingReadablePG pgRequests
                :: map (fun r => callClientWrite (fst (encodeResponse r))) before)).
Proof.
  intros Hok Hfail. cbn [answers]. unfold answer.
  cbn [replayer pendingCall resume negb wire calls wireAfter].
  rewrite (write_loop_prefix before (failing :: after) Hok).
  cbn [replyNext]. destruct (encodeResponse failing) as [encoded e].
  simpl in Hfail. subst e. rewrite <- app_assoc. reflexivity.
Qed.

Lemma replyNext_notPassingThrough {P : Pgproto3} {C : Collaborators}
    (rest : list Frontend.t) : notPassingThrough (replyNext rest).
Proof.
  destruct rest as [|r rest]; cbn; [exact I|].
  destruct (encodeResponse r) as [encoded [e|]]; exact I.
Qed.

Lemma answer_without_passthrough {P : Pgproto3} {C : Collaborators}
    (s : Session) (a : Answer) (s' : Session) :
  notPassingThrough (replayer s) -> notUnmatched a ->
  answer s a = Some s' ->
  notPassingThrough (replayer s')
  /\ toDest (wire s') = toDest (wire s)
  /\ exists c, calls s' = calls s ++ [c]
               /\ match c with callPassthrough _ => False | _ => True end.
Proof.
  intros Hr Ha H. unfold answer in H.
  destruct s as [r w cs]. cbn [replayer wire calls] in *.
  destruct r; cbn [notPassingThrough] in Hr; try contradiction;
    destruct a; cbn [pendingCall resume] in H; try discriminate H;
    injection H as <-; cbn [replayer wire calls wireAfter].
  - split; [destruct err; exact I|]. split; [reflexivity|].
    eexists. split; [reflexivity | exact I].
  - split.
    + destruct err as [e|]; [| exact I].
      repeat match goal with |- context [if ?c then _ else _] => destruct c end;
        exact I.
    + split; [reflexivity|]. eexists. split; [reflexivity | exact I].
  - split.
    + destruct err as [e|]; [exact I|].
      destruct matched; cbn [negb notUnmatched] in *; [| contradiction].
      apply replyNext_notPassingThrough.
    + split; [reflexivity|]. eexists. split; [reflexivity | exact I].
  - split.
    + destruct err as [e|]; [exact I | apply replyNext_notPassingThrough].
    + split; [destruct err; reflexivity|]. eexists. split; [reflexivity | exact I].
Qed.

(** X16.  As long as the matcher never answers "no match", a replay session
    never touches the real destination: nothing is written to the destination
    connection and [Passthrough] is never called, whatever the client sends
    and whatever else fails. *)
Theorem matched_session_never_reaches_destination {P : Pgproto3} {C : Collaborators}
    (requestBuffer : list byte) (l : list Answer) (s' : Session) :
  Forall notUnmatched l ->
  answers (decodePostgresOutgoing requestBuffer) l = Some s' ->
  toDest (wire s') = []
  /\ Forall (fun c => match c with callPassthrough _ => False | _ => True end) (calls s').
Proof.
  intros Hl Hrun.
  assert (Hgen : forall l s,
             Forall notUnmatched l ->
             notPassingThrough (replayer s) ->
             Forall (fun c => match c with callPassthrough _ => False | _ => True end)
               (calls s) ->
             answers s l = Some s' ->
             toDest (wire s') = toDest (wire s)
             /\ Forall (fun c => match c with callPassthrough _ => False | _ => True end)
                  (calls s')).
  { clear. induction l as [|a l IH]; intros s Hl Hr Hcs Hrun.
    - simpl in Hrun. injection Hrun as <-. auto.
    - cbn [answers] in Hrun. destruct (answer s a) as [s1|] eqn:Ha; [| discriminate Hrun].
      inversion Hl as [| a' l' Hna Hl']; subst.
      destruct (answer_without_passthrough s a s1 Hr Hna Ha) as (Hr1 & Hd & c & Hc & Hnp).
      destruct (IH s1 Hl' Hr1) as [Hd' Hcs']; [| exact Hrun |].
      + rewrite Hc. apply Forall_app. split; [exact Hcs|]. constructor; [exact Hnp | constructor].
      + rewrite Hd', Hd. auto. }
  apply (Hgen l (decodePostgresOutgoing requestBuffer) Hl); [exact I | constructor | exact Hrun].
Qed.

Lemma matched_session_never_reaches_destination_witness :
  let l := [ansSetReadDeadline None; ansReadBytes [] (Some net_timeout) false;
            ansMatchingReadablePG true [structuralEntry; rawEntry] None;
            ansClientWrite None; ansClientWrite None; ansSetReadDeadline None] in
  exists s',
    answers (C := codec) (decodePostgresOutgoing burst40) l = Some s'
    /\ toDest (wire s') = []
    /\ List.length (toClient (wire s')) = 2%nat.
Proof.
  intro l. eexists. split; [vm_compute; reflexivity|].
  destruct (matched_session_never_reaches_destination (C := codec) burst40 l _
              ltac:(repeat constructor) ltac:(vm_compute; reflexivity)) as [Hd _].
  split; [exact Hd | reflexivity].
Defined.

Lemma replay_stops_at_failing_entry_witness :
  answers (C := strictCodec)
    (mkSession (atMatchingReadablePG [burst40]) (mkWire [] []) [])
    [ansMatchingReadablePG true
       [structuralEntry; withPayloadFrontend rawEntry "!"; rawEntry] None;
     ansClientWrite None]
  = Some (mkSession (returned (other_error "illegal base64 data"))
            (mkWire [] [headers ["C"; "Z"]])
            [callMatchingReadablePG [burst40]; callClientWrite (headers ["C"; "Z"])]).
Proof.
  apply (replay_stops_at_failing_entry (C := strictCodec) [burst40]
           [structuralEntry] [rawEntry] (withPayloadFrontend rawEntry "!")
           (other_error "illegal base64 data") (mkWire [] []) []).
  - intros r [<- | []]. reflexivity.
  - reflexivity.
Defined.

Lemma replyNext_hasRequests {P : Pgproto3} {C : Collaborators}
    (rest : list Frontend.t) : replayHasRequests (replyNext rest).
Proof.
  destruct rest as [|r rest]; cbn; [exact I|].
  destruct (encodeResponse r) as [encoded [e|]]; exact I.
Qed.

Lemma answer_hasRequests {P : Pgproto3} {C : Collaborators}
    (s : Session) (a : Answer) (s' : Session) :
  replayHasRequests (replayer s) ->
  answer s a = Some s' ->
  replayHasRequests (replayer s')
  /\ exists c, calls s' = calls s ++ [c] /\ callHasRequests c.
Proof.
  intros Hr H. unfold answer in H.
  destruct s as [r w cs]. cbn [replayer wire calls] in *.
  destruct r; destruct a; cbn [pendingCall resume] in H; try discriminate H;
    injection H as <-; cbn [replayer calls].
  - split; [destruct err; exact I|]. eexists. split; [reflexivity | exact I].
  - split; [| eexists; split; [reflexivity | exact I]].
    destruct err as [e|]; [| exact I].
    destruct (negb terminateInitiated && negb (isTimeout (Some e))); [exact I|].
    destruct (isTimeout (Some e)); [| exact I].
    match goal with |- context [if ?c then _ else _] => destruct c eqn:E end; [exact I|].
    cbn. intro H. rewrite H in E. discriminate E.
  - split; [| eexists; split; [reflexivity | exact Hr]].
    destruct err as [e|]; [exact I|].
    destruct matched; cbn [negb]; [| exact Hr].
    apply replyNext_hasRequests.
  - split; [destruct err; exact I|]. eexists. split; [reflexivity | exact Hr].
  - split; [| eexists; split; [reflexivity | exact I]].
    destruct err as [e|]; [exact I|].
    apply replyNext_hasRequests.
Qed.

(** X17.  In a replay session the matcher and [Passthrough] are never called
    with an empty request list: an idle timeout with nothing captured only
    re-arms the read deadline. *)
Theorem matcher_never_gets_empty_list {P : Pgproto3} {C : Collaborators}
    (requestBuffer : list byte) (l : list Answer) (s' : Session) :
  answers (decodePostgresOutgoing requestBuffer) l = Some s' ->
  Forall callHasRequests (calls s') /\ replayHasRequests (replayer s').
Proof.
  assert (Hgen : forall l s,
             replayHasRequests (replayer s) -> Forall callHasRequests (calls s) ->
             answers s l = Some s' ->
             Forall callHasRequests (calls s') /\ replayHasRequests (replayer s')).
  { clear. induction l as [|a l IH]; intros s Hr Hcs Hrun.
    - simpl in Hrun. injection Hrun as <-. auto.
    - cbn [answers] in Hrun. destruct (answer s a) as [s1|] eqn:Ha; [| discriminate Hrun].
      destruct (answer_hasRequests s a s1 Hr Ha) as (Hr1 & c & Hc & Hok).
      apply (IH s1); [exact Hr1 | | exact Hrun].
      rewrite Hc. apply Forall_app. split; [exact Hcs|]. constructor; [exact Hok | constructor]. }
  apply Hgen; [exact I | constructor].
Qed.

Lemma matcher_never_gets_empty_list_witness :
  let l := [ansSetReadDeadline None; ansReadBytes [] (Some net_timeout) false;
            ansMatchingReadablePG true [] None;
            ansSetReadDeadline None; ansReadBytes [] (Some net_timeout) false;
            ansSetReadDeadline None; ansReadBytes [] (Some net_timeout) false] in
  exists s',
    answers (C := codec) (decodePostgresOutgoing burst40) l = Some s'
    /\ matcherCalls (calls s') = [[burst40]]
    /\ replayer s' = atSetReadDeadline []
    /\ Forall callHasRequests (calls s').
Proof.
  intro l. eexists. split; [vm_compute; reflexivity|].
  split; [reflexivity|]. split; [reflexivity|].
  destruct (matcher_never_gets_empty_list (C := codec) burst40 l _
              ltac:(vm_compute; reflexivity)) as [H _].
  exact H.
Defined.

(** ** package postgresparser: the timestamps of a mock *)

Lemma flushChunk_clockInvariant {P : Pgproto3} {C : Collaborators} (t : Z) (st : Relay) :
  clockInvariant t st -> clockInvariant t (flushChunk st).
Proof.
  intros (req & Hreq & Hle & Hres & Hmocks). unfold flushChunk.
  destruct (flushCondition st) eqn:E; [| exists req; auto].
  apply flushCondition_true in E. destruct E as (_ & _ & Hr).
  destruct (Hres Hr) as (res & Hres' & Hord).
  exists req. cbn. split; [exact Hreq|]. split; [exact Hle|].
  split; [intro H; contradiction|].
  apply Forall_app. split; [exact Hmocks|]. constructor; [| constructor].
  unfold timestampsOrdered, chunkMock. cbn. rewrite Hreq, Hres'. exact Hord.
Qed.

Lemma runRelay_clockInvariant {P : Pgproto3} {C : Collaborators} (requestBuffer : slice) :
  forall (evs : list Event) (t : Z) (st : Relay) (s : status) (st' : Relay),
    clockInvariant t st ->
    clockOrdered t evs ->
    runRelay requestBuffer st evs = Ok (s, st') ->
    Forall timestampsOrdered (appended st').
Proof.
  induction evs as [|ev evs IH]; intros t st s st' Hinv Hclock Hrun.
  - simpl in Hrun. injection Hrun as <- <-. destruct Hinv as (req & _ & _ & _ & H). exact H.
  - cbn [runRelay] in Hrun.
    pose proof (flushChunk_clockInvariant t st Hinv) as Hflush.
    destruct ev as [| buffer w | buffer n1 n2 w | err]; cbn [step] in Hrun.
    + unfold onSignal in Hrun. destruct (flushCondition st) eqn:E; cbn [bind] in Hrun.
      * injection Hrun as <- <-. cbn.
        destruct Hflush as (req & _ & _ & _ & H). exact H.
      * exact (IH t st s st' Hinv Hclock Hrun).
    + unfold onClientBuffer in Hrun. destruct w as [e|]; cbn [bind] in Hrun.
      * injection Hrun as <- <-. destruct Hinv as (req & _ & _ & _ & H). exact H.
      * destruct (recordRequest requestBuffer buffer) as [entries | |];
          cbn [bind] in Hrun; try discriminate Hrun.
        refine (IH t _ s st' _ Hclock Hrun).
        destruct Hflush as (req & Hreq & Hle & Hres & Hm).
        exists req. cbn. auto.
    + cbn [clockOrdered] in Hclock. destruct Hclock as (Ht1 & H12 & Hclock).
      destruct Hinv as (req & Hreq & Hle & Hres & Hm).
      unfold onDestBuffer in Hrun. destruct w as [e|]; cbn [bind] in Hrun.
      * injection Hrun as <- <-. exact Hm.
      * destruct (recordResponse requestBuffer buffer) as [entries | |];
          cbn [bind] in Hrun; try discriminate Hrun.
        refine (IH n2 _ s st' _ Hclock Hrun).
        destruct (isPreviousChunkRequest st).
        -- exists n1. cbn. split; [reflexivity|]. split; [lia|].
           split; [| exact Hm]. intros _. exists n2. split; [reflexivity | lia].
        -- exists req. cbn. split; [exact Hreq|]. split; [lia|].
           split; [| exact Hm]. intros _. exists n2. split; [reflexivity | lia].
    + cbn [bind] in Hrun. injection Hrun as <- <-.
      destruct Hinv as (req & _ & _ & _ & H). exact H.
Qed.

(** X18.  When the clock readings of a session never go back, every mock
    [encodePostgresOutgoing] appends has both timestamps set and its request
    timestamp is not later than its response timestamp.  (The request
    timestamp is read when the first response after a request arrives, not
    when the request does.) *)
Theorem mock_timestamps_ordered {P : Pgproto3} {C : Collaborators}
    (requestBuffer : slice) (now : Z) (writeErr : option error)
    (evs : list Event) (s : status) (st' : Relay) :
  clockOrdered now evs ->
  encodePostgresOutgoing requestBuffer now writeErr evs = Ok (s, st') ->
  Forall timestampsOrdered (appended st').
Proof.
  intro Hclock. unfold encodePostgresOutgoing, start.
  destruct (DecodeStartupMessage NewBackend (elems requestBuffer)) as [pg e].
  destruct writeErr as [w|].
  - intro H. injection H as <- <-. constructor.
  - apply (runRelay_clockInvariant requestBuffer evs now); [| exact Hclock].
    exists now. cbn. split; [reflexivity|]. split; [lia|].
    split; [intro H; contradiction | constructor].
Qed.

Lemma mock_timestamps_ordered_witness :
  let st3 := afterEvents (exchange ++ [clientBufferChannel queryBuffer None]) in
  exists m,
    appended st3 = [m]
    /\ Mock.ReqTimestampMock (Mock.Spec m) = Some 1
    /\ Mock.ResTimestampMock (Mock.Spec m) = Some 2
    /\ timestampsOrdered m.
Proof.
  intro st3.
  pose proof (mock_timestamps_ordered (C := codec) (bytes startup60) 0 None
                (exchange ++ [clientBufferChannel queryBuffer None]) Running st3
                ltac:(cbn; lia) ltac:(vm_compute; reflexivity)) as H.
  eexists. split; [reflexivity|]. split; [reflexivity|]. split; [reflexivity|].
  inversion H as [| m l Hm _]. exact Hm.
Defined.
